(** * Corrective RAG: the refinement graph and the document index

    A shallow embedding of [config.py], [document_processor.py] and
    [rag_system.py].  Python dictionaries with a fixed set of keys are
    records, [self.processed_doc] is a finite map, exceptions are an error
    monad, and the calls that leave the repository (the language model,
    FAISS, the loaders, the splitter, hashlib, pathlib) are methods of the
    class [Libraries] or explicit oracles. *)

From Stdlib Require Import ZArith QArith String List Bool Lia.
From stdpp Require Import base option gmap strings list fin_maps pretty.
Import ListNotations.

Local Open Scope string_scope.
Local Open Scope Z_scope.

(** ** Exceptions *)

Inductive exn_kind : Type :=
  | FileNotFoundError
  | ValueError
  | TypeError
  | KeyError
  | AttributeError
  | LibraryError.

(** An exception: its class and the text [str(e)] renders. *)
Record exn : Type := Exn { exn_class : exn_kind; exn_text : string }.

Inductive result (A : Type) : Type :=
  | Ok (a : A)
  | Raise (e : exn).
Arguments Ok {A} a.
Arguments Raise {A} e.

Definition rbind {A B} (r : result A) (k : A -> result B) : result B :=
  match r with
  | Ok a => k a
  | Raise e => Raise e
  end.

#[global] Instance result_ret : MRet result := fun A a => Ok a.
#[global] Instance result_bind : MBind result := fun A B k r => rbind r k.

(** ** config.py *)

Record Config : Type := {
  LLM_MODEL : string;
  CHUNK_SIZE : Z;
  CHUNK_OVERLAP : Z;
  MAX_RETRIEVAL_DOCS : Z;
  MIN_CONFIDENCE_THRESHOLD : Q;
  MAX_CORRECTION_ITERATIONS : Z;
  MAX_FILE_SIZE_MB : Z
}.

(** The values [class Config] assigns. *)
Definition Config_default : Config := {|
  LLM_MODEL := " deepseek-r1-distill-llama-70b";
  CHUNK_SIZE := 1000;
  CHUNK_OVERLAP := 200;
  MAX_RETRIEVAL_DOCS := 5;
  MIN_CONFIDENCE_THRESHOLD := 7 # 10;
  MAX_CORRECTION_ITERATIONS := 3;
  MAX_FILE_SIZE_MB := 50
|}.

(** The configurations the interface admits: a threshold in [0,1] and at
    least one iteration. *)
Definition valid_config (cfg : Config) : Prop :=
  (0 <= MIN_CONFIDENCE_THRESHOLD cfg)%Q /\
  (MIN_CONFIDENCE_THRESHOLD cfg <= 1)%Q /\
  1 <= MAX_CORRECTION_ITERATIONS cfg.

(** [a < b] on floats, as the comparison of the numbers they denote. *)
Definition Qltb (a b : Q) : bool :=
  match (a ?= b)%Q with
  | Lt => true
  | _ => false
  end.

(** ** Documents and values stored in dictionaries *)

(** A langchain [Document].  Its [metadata] dictionary is kept by the four
    keys this program writes or reads; [None] is an absent key. *)
Record Document : Type := {
  page_content : string;
  md_source : option string;
  md_file_type : option string;
  md_file_size_mn : option Q;
  md_file_hash : option string
}.

(** Values of the [metadata] dictionary of a [RAGState]. *)
Inductive pyval : Type :=
  | VInt (z : Z)
  | VInts (l : list Z)
  | VStrs (l : list string).

(** ** rag_system.py: the state threaded through the graph *)

Record RAGState : Type := {
  question : string;
  context : list string;
  answer : string;
  confidence : Q;
  sources : list string;
  corrections_made : list string;
  verification_status : string;
  iteration_count : Z;
  metadata : gmap string pyval
}.

(** [should_correct]: the function of the conditional edge leaving [verify].
    Every state of a run carries all nine keys (see [initial_state]), so
    the defaults of [state.get] are never taken. *)
Definition should_correct (cfg : Config) (state : RAGState) : string :=
  if MAX_CORRECTION_ITERATIONS cfg <=? iteration_count state then "finalize"
  else if String.eqb (verification_status state) "NEEDS_CORRECTION"
          || Qltb (confidence state) (MIN_CONFIDENCE_THRESHOLD cfg)
       then "correct"
       else "finalize".

(** ** The libraries the program calls *)

Inductive loader : Type :=
  | PyPDFLoader
  | Docx2txtLoader
  | TextLoader.

(** The result of every call that leaves the repository, as a function of
    its arguments.  A call that can fail returns a [result]. *)
Class Libraries : Type := {
  (** [hashlib.md5]: the hex digest of the bytes fed to the object. *)
  md5_hexdigest : list Byte.byte -> string;
  (** [pathlib]: [Path(p).name] and [Path(p).suffix]. *)
  path_name : string -> string;
  path_suffix : string -> string;
  (** [str.lower]. *)
  str_lower : string -> string;
  (** Formatting of a float with [: .1f] and of an integer, and [round(x, 2)]. *)
  format_1f : Q -> string;
  format_int : Z -> string;
  round2 : Q -> Q;
  (** [loader.load()] of the loader built on a path, given the file's bytes. *)
  loader_load : loader -> string -> list Byte.byte -> result (list Document);
  (** [RecursiveCharacterTextSplitter.split_documents]. *)
  split_documents : list Document -> result (list Document);
  (** FAISS: an index, [FAISS.from_documents], [add_documents] (the index
      after its in-place update), [similarity_search] and the number of
      entries of [docstore._dict]. *)
  store : Type;
  from_documents : list Document -> result store;
  add_documents : store -> list Document -> result store;
  similarity_search : store -> string -> Z -> result (list Document);
  docstore_len : store -> Z
}.

(** The files on disk: the bytes of each path that names a file. *)
Definition filesystem : Type := string -> option (list Byte.byte).

Definition len {A} (l : list A) : Z := Z.of_nat (length l).

(** [filter(function, iterable)], run to the end. *)
Fixpoint py_filter {A} (function : A -> result bool) (iterable : list A) : result (list A) :=
  match iterable with
  | [] => Ok []
  | x :: rest =>
      function x ≫= λ keep : bool,
      py_filter function rest ≫= λ kept,
      Ok (if keep then x :: kept else kept)
  end.

(** A [for] loop whose body may raise. *)
Fixpoint for_each {A S} (body : S -> A -> result S) (items : list A) (acc : S) : result S :=
  match items with
  | [] => Ok acc
  | x :: rest => acc' ← body acc x; for_each body rest acc'
  end.

Fixpoint map_result {A B} (f : A -> result B) (l : list A) : result (list B) :=
  match l with
  | [] => Ok []
  | x :: rest => y ← f x; ys ← map_result f rest; Ok (y :: ys)
  end.

(** ** document_processor.py *)

Section DocumentProcessor.
Context `{L : Libraries}.

Record DocumentProcessor : Type := {
  vectorstore : option store;
  processed_doc : gmap string (list Document)
}.

(** [__init__]: no index, no processed file. *)
Definition DocumentProcessor_init : DocumentProcessor :=
  {| vectorstore := None; processed_doc := ∅ |}.

(** A method: it reads and writes [self] and returns or raises. *)
Definition method (A : Type) : Type := DocumentProcessor -> result A * DocumentProcessor.

Definition ret {A} (a : A) : method A := fun self => (Ok a, self).
Definition throw {A} (e : exn) : method A := fun self => (Raise e, self).
Definition lift {A} (r : result A) : method A := fun self => (r, self).
Definition bind {A B} (m : method A) (k : A -> method B) : method B :=
  fun self =>
    match m self with
    | (Ok a, self') => k a self'
    | (Raise e, self') => (Raise e, self')
    end.
Definition try_except {A} (body : method A) (handler : exn -> method A) : method A :=
  fun self =>
    match body self with
    | (Ok a, self') => (Ok a, self')
    | (Raise e, self') => handler e self'
    end.
Definition read_self {A} (f : DocumentProcessor -> A) : method A := fun self => (Ok (f self), self).
Definition set_vectorstore (v : store) : method unit :=
  fun self => (Ok tt, {| vectorstore := Some v; processed_doc := processed_doc self |}).
Definition set_processed_doc (k : string) (chunks : list Document) : method unit :=
  fun self => (Ok tt, {| vectorstore := vectorstore self;
                         processed_doc := <[k := chunks]> (processed_doc self) |}).

#[global] Instance method_bind : MBind method := fun A B k m => bind m k.

(** [get_file_hash].  A new md5 object has been fed no byte; the loop runs
    over [filter(lambda: f.read(4096), b"")], whose iterable is the empty
    bytes object.  The lambda takes no argument and [update] takes no
    integer, so either would raise on an item. *)
Definition get_file_hash (fs : filesystem) (file_path : string) : result string :=
  let hash_md5 : list Byte.byte := [] in
  match fs file_path with
  | None =>
      Raise (Exn FileNotFoundError ("[Errno 2] No such file or directory: '" ++ file_path ++ "'"))
  | Some f =>
      chunks ←
        py_filter (fun _ : Byte.byte =>
                     Raise (Exn TypeError "<lambda>() takes 0 positional arguments but 1 was given"))
                  [];
      hash_md5 ←
        for_each (fun (_ : list Byte.byte) (_ : Byte.byte) =>
                    Raise (Exn TypeError "object supporting the buffer API required"))
                 chunks hash_md5;
      Ok (md5_hexdigest hash_md5)
  end.

Definition file_size_mb (f : list Byte.byte) : Q := inject_Z (len f) / inject_Z (1024 * 1024).

Definition choose_loader (file_extention : string) : result loader :=
  if String.eqb file_extention ".pdf" then Ok PyPDFLoader
  else if String.eqb file_extention ".docx" then Ok Docx2txtLoader
  else if String.eqb file_extention ".txt" then Ok TextLoader
  else Raise (Exn ValueError ("Unsupported file type: " ++ file_extention)).

Definition update_metadata (fs : filesystem) (file_path file_extention : string)
    (size_mb : Q) (doc : Document) : result Document :=
  h ← get_file_hash fs file_path;
   Ok {| page_content := page_content doc;
         md_source := Some (path_name file_path);
         md_file_type := Some file_extention;
         md_file_size_mn := Some (round2 size_mb);
         md_file_hash := Some h |}.

(** [load_documents].  The two checks before the [try] raise; the handler
    of the [try] logs and falls off the end of the function, which then
    returns [None]. *)
Definition load_documents (cfg : Config) (fs : filesystem) (file_path : string)
    : result (option (list Document)) :=
  match fs file_path with
  | None => Raise (Exn FileNotFoundError ("File not found: " ++ file_path))
  | Some f =>
      if Qltb (inject_Z (MAX_FILE_SIZE_MB cfg)) (file_size_mb f)
      then Raise (Exn ValueError ("File is too large: " ++ format_1f (file_size_mb f)
                                  ++ "MB. Maximum allowed: "
                                  ++ format_int (MAX_FILE_SIZE_MB cfg) ++ "MB"))
      else
        let file_extention := str_lower (path_suffix file_path) in
        let attempt :=
          loader ← choose_loader file_extention;
          documents ← loader_load loader file_path f;
          map_result (update_metadata fs file_path file_extention (file_size_mb f)) documents in
        match attempt with
        | Ok documents => Ok (Some documents)
        | Raise _ => Ok None
        end
  end.

(** [process_documents].  Iterating [None] raises in the splitter. *)
Definition process_documents (documents : option (list Document)) : result (list Document) :=
  match documents with
  | None => Raise (Exn TypeError "'NoneType' object is not iterable")
  | Some docs => split_documents docs
  end.

Definition create_vectorstore (chunks : list Document) : method store :=
  v ← lift (from_documents chunks);
  _ ← set_vectorstore v;
  ret v.

Definition add_docs_to_vectorstore (chunks : list Document) : method unit :=
  vs ← read_self vectorstore;
  match vs with
  | None => _ ← create_vectorstore chunks; ret tt
  | Some v => v' ← lift (add_documents v chunks); set_vectorstore v'
  end.

(** The dictionary [process_uploaded_file] returns. *)
Record file_result : Type := {
  success : bool;
  message : string;
  chunks_added : Z;
  total_chunks : Z
}.

Definition process_uploaded_file (cfg : Config) (fs : filesystem) (file_path : string)
    : method file_result :=
  let body : method file_result :=
     file_hash ← lift (get_file_hash fs file_path);
     seen ← read_self processed_doc;
     match seen !! file_hash with
     | Some chunks =>
         ret {| success := true; message := "File already processed";
                chunks_added := 0; total_chunks := len chunks |}
     | None =>
         documents ← lift (load_documents cfg fs file_path);
         chunks ← lift (process_documents documents);
         _ ← add_docs_to_vectorstore chunks;
         _ ← set_processed_doc file_hash chunks;
         ret {| success := true; message := "document processed successfully";
                chunks_added := len chunks; total_chunks := len chunks |}
     end in
  try_except body
    (fun e =>
       ret {| success := false; message := "Error processing file: " ++ exn_text e;
              chunks_added := 0; total_chunks := 0 |}).

(** [k or Config.MAX_RETRIEVAL_DOCS]: [None] and [0] are falsy. *)
Definition k_or_default (cfg : Config) (k : option Z) : Z :=
  match k with
  | Some k' => if k' =? 0 then MAX_RETRIEVAL_DOCS cfg else k'
  | None => MAX_RETRIEVAL_DOCS cfg
  end.

Definition search_documents (cfg : Config) (query : string) (k : option Z)
    : method (list Document) :=
  vs ← read_self vectorstore;
  match vs with
  | None => throw (Exn ValueError "No documents loaded. Please upload documents first")
  | Some v => lift (similarity_search v query (k_or_default cfg k))
  end.

Record vectorstore_stats : Type := {
  total_documents : Z;
  stats_total_chunks : Z;
  processed_files : Z
}.

Definition get_vectorestore_stats : method vectorstore_stats :=
  vs ← read_self vectorstore;
  match vs with
  | None => ret {| total_documents := 0; stats_total_chunks := 0; processed_files := 0 |}
  | Some v =>
      let total_chunks := docstore_len v in
      seen ← read_self processed_doc;
      ret {| total_documents := Z.of_nat (size seen);
             stats_total_chunks := total_chunks;
             processed_files := Z.of_nat (size seen) |}
  end.

End DocumentProcessor.

(** ** rag_system.py: the language model *)

(** The three prompt templates, by the fields formatted into them. *)
Inductive prompt : Type :=
  | answer_prompt (context question : string)
  | verification_prompt (question answer context : string)
  | correction_prompt (question answer context issues : string).

(** The object the verifier was asked for, as [json.loads] returns it: a
    dictionary kept by the five keys [verify_answer] reads, each absent
    ([None]) or holding a value of the type the prompt asks for: a
    string, a number, and three lists of strings.  [verify_answer] reads
    the fields unchecked, and a dictionary with a field of another type
    (a list of issues that is null, on which [extend] raises TypeError)
    has no counterpart here: what is proved of the replies of the
    verifier is proved of the replies of these types. *)
Record verdict : Type := {
  v_verification_status : option string;
  v_confidence : option Q;
  v_issues : option (list string);
  v_missing_information : option (list string);
  v_legal_concerns : option (list string)
}.

(** What [json.loads] makes of a text: it raises [JSONDecodeError], or
    returns a value that is not a dictionary (of the Python type named),
    or returns a dictionary. *)
Inductive loads_result : Type :=
  | JSONDecodeError
  | NonDict (type_name : string)
  | Dict (d : verdict).

(** A reply of the model: its [content], and what [json.loads] makes of
    that content. *)
Record AIMessage : Type := {
  content : string;
  json_loads_content : loads_result
}.

(** [self.llm.invoke]: the reply to the [n]-th call of a query, or the
    exception the call raises. *)
Definition llm_oracle : Type := nat -> prompt -> result AIMessage.

Definition nl : string := String (Ascii.ascii_of_nat 10) EmptyString.

(** ** rag_system.py: the nodes of the graph *)

Section LegalRAGSystem.
Context `{L : Libraries}.
Variable cfg : Config.

Definition source_or_unknown (doc : Document) : string :=
  match md_source doc with
  | Some s => s
  | None => "Unknown"
  end.

(** [retrieve_context].  [list(set(sources))] keeps one copy of each
    source, in an order Python leaves open; [remove_dups] is one. *)
Definition retrieve_context (self : DocumentProcessor) (state : RAGState) : result RAGState :=
  docs ← fst (search_documents cfg (question state) None self);
  let context := map page_content docs in
  let sources := map source_or_unknown docs in
  let metadata : gmap string pyval :=
    <["retrieved_docs" := VInt (len docs)]>
      (<["source_files" := VStrs (remove_dups sources)]>
         (<["chunk_sizes" := VInts (map (fun doc => Z.of_nat (String.length (page_content doc))) docs)]> ∅)) in
  Ok {| question := question state;
        context := context;
        answer := answer state;
        confidence := confidence state;
        sources := sources;
        corrections_made := corrections_made state;
        verification_status := verification_status state;
        iteration_count := iteration_count state;
        metadata := metadata |}.

Definition generate_answer (invoke : prompt -> result AIMessage) (state : RAGState)
    : result RAGState :=
  let context_str := String.concat (nl ++ nl) (context state) in
  response ← invoke (answer_prompt context_str (question state));
  Ok {| question := question state;
        context := context state;
        answer := content response;
        confidence := confidence state;
        sources := sources state;
        corrections_made := corrections_made state;
        verification_status := verification_status state;
        iteration_count := iteration_count state + 1;
        metadata := metadata state |}.

Definition get_or_empty (field : option (list string)) : list string :=
  match field with
  | Some l => l
  | None => []
  end.

(** [verify_answer].  Only [JSONDecodeError] is handled by the inner
    [try]; the outer handler logs and raises again. *)
Definition verify_answer (invoke : prompt -> result AIMessage) (state : RAGState)
    : result RAGState :=
  let context_str := String.concat (nl ++ nl) (context state) in
  verification_response ←
    invoke (verification_prompt (question state) (answer state) context_str);
  match json_loads_content verification_response with
  | JSONDecodeError =>
      Ok {| question := question state;
            context := context state;
            answer := answer state;
            confidence := 1 # 2;
            sources := sources state;
            corrections_made := (corrections_made state ++ ["Verification parsing error"])%list;
            verification_status := "NEEDS_CORRECTION";
            iteration_count := iteration_count state;
            metadata := metadata state |}
  | NonDict type_name =>
      Raise (Exn AttributeError ("'" ++ type_name ++ "' object has no attribute 'get'"))
  | Dict verification_data =>
      let all_issues :=
        ((([] ++ get_or_empty (v_issues verification_data))
            ++ get_or_empty (v_missing_information verification_data))
           ++ get_or_empty (v_legal_concerns verification_data))%list in
      match v_verification_status verification_data with
      | None => Raise (Exn KeyError "'verification_status'")
      | Some status =>
          match v_confidence verification_data with
          | None => Raise (Exn KeyError "'confidence'")
          | Some conf =>
              Ok {| question := question state;
                    context := context state;
                    answer := answer state;
                    confidence := conf;
                    sources := sources state;
                    corrections_made := (corrections_made state ++ all_issues)%list;
                    verification_status := status;
                    iteration_count := iteration_count state;
                    metadata := metadata state |}
          end
      end
  end.

Definition correct_answer (invoke : prompt -> result AIMessage) (state : RAGState)
    : result RAGState :=
  let context_str := String.concat (nl ++ nl) (context state) in
  let issues_str := String.concat nl (corrections_made state) in
  correction_response ←
    invoke (correction_prompt (question state) (answer state) context_str issues_str);
  Ok {| question := question state;
        context := context state;
        answer := content correction_response;
        confidence := confidence state;
        sources := sources state;
        corrections_made :=
          (corrections_made state ++ ["Answer corrected based on verification"])%list;
        verification_status := verification_status state;
        iteration_count := iteration_count state;
        metadata := metadata state |}.

Definition finalize_response (state : RAGState) : RAGState :=
  let final_metadata :=
    <["total_corrections" := VInt (len (corrections_made state))]>
      (<["final_iteration_count" := VInt (iteration_count state)]> (metadata state)) in
  {| question := question state;
     context := context state;
     answer := answer state;
     confidence := confidence state;
     sources := sources state;
     corrections_made := corrections_made state;
     verification_status := verification_status state;
     iteration_count := iteration_count state;
     metadata := final_metadata |}.

(** ** rag_system.py: the graph of [create_correction_graph] *)

Inductive node : Type :=
  | retrieve
  | generate
  | verify
  | correct
  | finalize
  | END.

(** The mapping of the conditional edges leaving [verify]. *)
Definition conditional_edges (key : string) : option node :=
  if String.eqb key "correct" then Some correct
  else if String.eqb key "finalize" then Some finalize
  else None.

(** A run in progress: the node to execute next, the state, the number
    of calls made to the model, and the nodes executed so far (latest
    first). *)
Record run : Type := {
  next : node;
  state_of : RAGState;
  llm_calls : nat;
  executed : list node
}.

Definition after (r : run) (nxt : node) (st : RAGState) (calls : nat) : run :=
  {| next := nxt; state_of := st; llm_calls := calls; executed := next r :: executed r |}.

(** One node is executed and the edge leaving it is followed.  At [END]
    nothing is left to execute. *)
Definition step (self : DocumentProcessor) (llm : llm_oracle) (r : run) : result run :=
  let invoke := llm (llm_calls r) in
  match next r with
  | retrieve =>
      st ← retrieve_context self (state_of r);
      Ok (after r generate st (llm_calls r))
  | generate =>
      st ← generate_answer invoke (state_of r);
      Ok (after r verify st (S (llm_calls r)))
  | verify =>
      st ← verify_answer invoke (state_of r);
      match conditional_edges (should_correct cfg st) with
      | Some nxt => Ok (after r nxt st (S (llm_calls r)))
      | None => Raise (Exn KeyError (should_correct cfg st))
      end
  | correct =>
      st ← correct_answer invoke (state_of r);
      Ok (after r verify st (S (llm_calls r)))
  | finalize =>
      Ok (after r END (finalize_response (state_of r)) (llm_calls r))
  | END => Ok r
  end.

(** [n] node executions of the graph as [create_correction_graph]
    declares it.  The graph library stops an invocation after a number
    of them, [recursion_limit] below. *)
Fixpoint steps (self : DocumentProcessor) (llm : llm_oracle) (n : nat) (r : run) : result run :=
  match n with
  | O => Ok r
  | S n' => r' ← step self llm r; steps self llm n' r'
  end.

(** [query] builds this state and hands it to the graph at its entry
    point. *)
Definition initial_state (question : string) : RAGState :=
  {| question := question;
     context := [];
     answer := "";
     confidence := 0;
     sources := [];
     corrections_made := [];
     verification_status := "";
     iteration_count := 0;
     metadata := ∅ |}.

Definition start (question : string) : run :=
  {| next := retrieve; state_of := initial_state question; llm_calls := 0%nat; executed := [] |}.

Record RAGResponse : Type := {
  r_answer : string;
  r_confidence : Q;
  r_sources : list string;
  r_corrections_made : list string;
  r_verification_status : string;
  r_metadata : gmap string pyval
}.

Definition response_of (final_state : RAGState) : RAGResponse :=
  {| r_answer := answer final_state;
     r_confidence := confidence final_state;
     r_sources := sources final_state;
     r_corrections_made := corrections_made final_state;
     r_verification_status := verification_status final_state;
     r_metadata := metadata final_state |}.

(** [query], with the graph given [fuel] node executions: [None] when the
    graph has not reached [END] by then. *)
Definition query (self : DocumentProcessor) (llm : llm_oracle) (question : string) (fuel : nat)
    : result (option RAGResponse) :=
  r ← steps self llm fuel (start question);
  match next r with
  | END => Ok (Some (response_of (state_of r)))
  | _ => Ok None
  end.

(** The number of node executions after which the graph library stops
    an invocation with its GraphRecursionError when the caller sets no
    [recursion_limit]; [query] sets none. *)
Definition recursion_limit : nat := 25.

(** [query] as the library runs the graph: the response, when the graph
    reaches [END] within [recursion_limit] node executions, and the
    error of the library otherwise. *)
Definition LegalRAGSystem_query (self : DocumentProcessor) (llm : llm_oracle)
    (question : string) : result RAGResponse :=
  match query self llm question recursion_limit with
  | Ok (Some response) => Ok response
  | Ok None =>
      Raise (Exn LibraryError
               "Recursion limit of 25 reached without hitting a stop condition")
  | Raise e => Raise e
  end.

(** ** rag_system.py: ingestion and statistics *)

(** An attribute of a [DocumentProcessor]: the method that returns the
    statistics of the index, or any other attribute. *)
Inductive processor_attr : Type :=
  | StatsMethod
  | OtherAttr.

(** The names a [DocumentProcessor] has: the four attributes [__init__]
    assigns and the eight methods of the class. *)
Definition DocumentProcessor_class : list (string * processor_attr) :=
  [ ("embeddings", OtherAttr); ("text_splitter", OtherAttr);
    ("vectorstore", OtherAttr); ("processed_doc", OtherAttr);
    ("get_file_hash", OtherAttr); ("load_documents", OtherAttr);
    ("process_documents", OtherAttr); ("create_vectorstore", OtherAttr);
    ("add_docs_to_vectorstore", OtherAttr); ("process_uploaded_file", OtherAttr);
    ("search_documents", OtherAttr);
    ("get_vectorestore_stats", StatsMethod) ].

Fixpoint processor_lookup (names : list (string * processor_attr)) (name : string)
    : option processor_attr :=
  match names with
  | [] => None
  | (n, a) :: rest => if String.eqb n name then Some a else processor_lookup rest name
  end.

(** [self.document_processor.<name>]: a name the object does not have
    raises. *)
Definition DocumentProcessor_getattr (name : string) : result processor_attr :=
  match processor_lookup DocumentProcessor_class name with
  | Some a => Ok a
  | None =>
      Raise (Exn AttributeError
               ("'DocumentProcessor' object has no attribute '" ++ name ++ "'"))
  end.

(** [self.document_processor.<name>()], a call without argument where a
    dictionary of statistics is expected. *)
Definition document_processor_call (name : string) : method vectorstore_stats :=
  match DocumentProcessor_getattr name with
  | Raise e => throw e
  | Ok StatsMethod => get_vectorestore_stats
  | Ok OtherAttr => throw (Exn TypeError ("'" ++ name ++ "' cannot be called without argument"))
  end.

Record ingestion : Type := {
  results : list file_result;
  total_chunks_added : Z;
  ingestion_stats : vectorstore_stats
}.

Fixpoint ingest_loop (fs : filesystem) (file_paths : list string)
    (results : list file_result) (total_chunks : Z)
    : method (list file_result * Z) :=
  match file_paths with
  | [] => ret (results, total_chunks)
  | file_path :: rest =>
      result ← process_uploaded_file cfg fs file_path;
      ingest_loop fs rest (results ++ [result])%list
        (if success result then total_chunks + chunks_added result else total_chunks)
  end.

(** [process_documents] of the system.  The dictionary it returns is
    built after the loop, and building it looks up [get_vectorstore_stats]
    on the document processor. *)
Definition LegalRAGSystem_process_documents (fs : filesystem) (file_paths : list string)
    : method ingestion :=
  '(results, total_chunks) ← ingest_loop fs file_paths [] 0;
  stats ← document_processor_call "get_vectorstore_stats";
  ret {| results := results; total_chunks_added := total_chunks; ingestion_stats := stats |}.

Record config_snapshot : Type := {
  snap_model : string;
  snap_chunk_size : Z;
  snap_max_retrieval_docs : Z;
  snap_confidence_threshold : Q;
  snap_max_iterations : Z
}.

Record system_stats : Type := {
  document_stats : vectorstore_stats;
  config : config_snapshot
}.

(** [get_system_stats]: the first value of the dictionary is the result
    of [self.document_processor.get_vectorstore_stats()]. *)
Definition get_system_stats : method system_stats :=
  stats ← document_processor_call "get_vectorstore_stats";
  ret {| document_stats := stats;
         config := {| snap_model := LLM_MODEL cfg;
                      snap_chunk_size := CHUNK_SIZE cfg;
                      snap_max_retrieval_docs := MAX_RETRIEVAL_DOCS cfg;
                      snap_confidence_threshold := MIN_CONFIDENCE_THRESHOLD cfg;
                      snap_max_iterations := MAX_CORRECTION_ITERATIONS cfg |} |}.

End LegalRAGSystem.

(** ** helpers.py *)

(** What the display helpers and the application ask of the runtime. *)
Class Runtime : Type := {
  (** [str.strip]. *)
  str_strip : string -> string;
  (** [int(confidence * 100)], computed on floats. *)
  percent_int : Q -> Z;
  (** Formatting of a float with [:.1f]. *)
  format_dot1f : Q -> string;
  (** [str(Path(directory) / name)]. *)
  path_join : string -> string -> string;
  (** [repr] of a string. *)
  repr_str : string -> string
}.


(** [str(v)] of a value of a metadata dictionary. *)
Definition py_str `{R : Runtime} (v : pyval) : string :=
  match v with
  | VInt z => pretty z
  | VInts l => "[" ++ String.concat ", " (map pretty l) ++ "]"
  | VStrs l => "[" ++ String.concat ", " (map repr_str l) ++ "]"
  end.

(** [len(v)]: only a list has a length. *)
Definition py_len (v : pyval) : result Z :=
  match v with
  | VInt _ => Raise (Exn TypeError "object of type 'int' has no len()")
  | VInts l => Ok (len l)
  | VStrs l => Ok (len l)
  end.




(** The loop of [format_sources_list] that removes duplicates: a source
    is appended when it is not in [seen]. *)
Fixpoint unique_in_order (sources unique_sources : list string) (seen : gset string)
    : list string :=
  match sources with
  | [] => unique_sources
  | source :: rest =>
      if decide (source ∈ seen)
      then unique_in_order rest unique_sources seen
      else unique_in_order rest (unique_sources ++ [source])%list ({[source]} ∪ seen)
  end.


(** The lines [format_metadata] collects, key by key. *)
Definition metadata_lines `{R : Runtime} (metadata : gmap string pyval)
    : result (list string) :=
  let formatted_lines : list string := [] in
  let formatted_lines :=
    match metadata !! "retrieved_docs" with
    | Some v => (formatted_lines ++ ["📊 Retrieved Documents: " +:+ py_str v])%list
    | None => formatted_lines
    end in
  formatted_lines ←
    match metadata !! "source_files" with
    | Some v =>
        n ← py_len v;
        Ok (formatted_lines ++ ["📁 Source Files: " +:+ pretty n])%list
    | None => Ok formatted_lines
    end;
  let formatted_lines :=
    match metadata !! "final_iteration_count" with
    | Some v => (formatted_lines ++ ["🔄 Processing Iterations: " +:+ py_str v])%list
    | None => formatted_lines
    end in
  let formatted_lines :=
    match metadata !! "total_corrections" with
    | Some v => (formatted_lines ++ ["🔧 Total Corrections: " +:+ py_str v])%list
    | None => formatted_lines
    end in
  Ok formatted_lines.

Definition format_metadata `{R : Runtime} (metadata : gmap string pyval) : result string :=
  if decide (metadata = ∅) then Ok "No metadata available"
  else
    formatted_lines ← metadata_lines metadata;
    match formatted_lines with
    | [] => Ok "No metadata available"
    | _ => Ok (String.concat nl formatted_lines)
    end.

(** [Config.LEGAL_DOCUMENTS_TYPES]. *)
Definition LEGAL_DOCUMENTS_TYPES : list string := [".pdf"; ".docx"; ".txt"].

Definition validate_file_type `{L : Libraries} (file_path : string)
    (allowed_extensions : list string) : bool :=
  let file_extension := str_lower (path_suffix file_path) in
  bool_decide (file_extension ∈ allowed_extensions).

(** [get_file_size_mb]: [stat] raises on a path that names no file. *)
Definition get_file_size_mb (fs : filesystem) (file_path : string) : result Q :=
  match fs file_path with
  | None =>
      Raise (Exn FileNotFoundError ("[Errno 2] No such file or directory: '" ++ file_path ++ "'"))
  | Some f => Ok (inject_Z (len f) / inject_Z (1024 * 1024))%Q
  end.

Definition format_file_info `{L : Libraries} `{R : Runtime} (fs : filesystem)
    (file_path : string) : result string :=
  size_mb ← get_file_size_mb fs file_path;
  Ok ("📄 " ++ path_name file_path ++ " (" ++ format_dot1f size_mb ++ " MB)").

(** [name.rsplit('.', 1)] when it has two parts: the text before the
    last dot and the text after it. *)
Fixpoint rsplit_dot (name : string) : option (string * string) :=
  match name with
  | EmptyString => None
  | String c rest =>
      match rsplit_dot rest with
      | Some (before, ext) => Some (String c before, ext)
      | None => if Ascii.eqb c (Ascii.ascii_of_nat 46) then Some (EmptyString, rest) else None
      end
  end.

(** An uploaded file: its name and its bytes. *)
Record uploaded : Type := {
  up_name : string;
  up_data : list Byte.byte
}.

(** The name [save_uploaded_file] tries once [counter - 1] names were
    taken. *)
Definition renamed (name : string) (counter : Z) : string :=
  match rsplit_dot name with
  | Some (before, ext) => before ++ "_" ++ pretty counter ++ "." ++ ext
  | None => name ++ "_" ++ pretty counter
  end.

(** The [while] loop of [save_uploaded_file], for at most [fuel] rounds:
    the first path that names no file, or [None] when the rounds are
    used up. *)
Fixpoint unique_path `{R : Runtime} (fuel : nat) (fs : filesystem) (upload_dir name : string)
    (file_path : string) (counter : Z) : option string :=
  match fs file_path with
  | None => Some file_path
  | Some _ =>
      match fuel with
      | O => None
      | S fuel' =>
          unique_path fuel' fs upload_dir name
            (path_join upload_dir (renamed name counter)) (counter + 1)
      end
  end.

(** Writing [data] to [file_path]. *)
Definition write_file (fs : filesystem) (file_path : string) (data : list Byte.byte)
    : filesystem :=
  fun p => if String.eqb p file_path then Some data else fs p.

(** [save_uploaded_file]: the path written and the disk afterwards.  The
    directory is taken to exist and the file to open for writing. *)
Definition save_uploaded_file `{R : Runtime} (fuel : nat) (fs : filesystem)
    (uploaded_file : uploaded) (upload_dir : string) : option (string * filesystem) :=
  match unique_path fuel fs upload_dir (up_name uploaded_file)
          (path_join upload_dir (up_name uploaded_file)) 1 with
  | None => None
  | Some file_path => Some (file_path, write_file fs file_path (up_data uploaded_file))
  end.

(** [create_processing_summary].  [None] as argument is a dictionary
    that is empty or has no key "results"; the dictionary
    [process_documents] returns has the key.  After building
    [summary_lines] the function ends, so it returns Python's [None]. *)
Definition create_processing_summary (processing : option ingestion) : option string :=
  match processing with
  | None => Some "No processing results available"
  | Some r =>
      let successful := len (filter (fun res => success res = true) (results r)) in
      let total := len (results r) in
      let total_chunks := total_chunks_added r in
      let summary_lines :=
        ["✅ Successfully processed: " +:+ pretty successful +:+ " / " +:+ pretty total] in
      None
  end.

(** ** main.py *)

(** An attribute of [class Config]: a list of strings, or a value of
    another type. *)
Inductive class_attr : Type :=
  | AttrStrs (l : list string)
  | AttrOther.

(** The names [class Config] defines. *)
Definition Config_class : list (string * class_attr) :=
  [ ("HUGGINGFACE_API_KEY", AttrOther); ("GROQ_API_KEY", AttrOther);
    ("LLM_MODEL", AttrOther); ("EMBEDDING_MODEL", AttrOther);
    ("LLM_TEMPERATURE", AttrOther);
    ("CHUNK_SIZE", AttrOther); ("CHUNK_OVERLAP", AttrOther);
    ("MAX_RETRIEVAL_DOCS", AttrOther); ("MIN_CONFIDENCE_THRESHOLD", AttrOther);
    ("MAX_CORRECTION_ITERATIONS", AttrOther);
    ("PROJECT_ROOT", AttrOther); ("DATA_DIR", AttrOther); ("UPLOADS_DIR", AttrOther);
    ("GRADIO_SHARE", AttrOther); ("GRADIO_SERVER_NAME", AttrOther);
    ("GRADIO_SERVER_PORT", AttrOther);
    ("LEGAL_DOCUMENTS_TYPES", AttrStrs LEGAL_DOCUMENTS_TYPES);
    ("MAX_FILE_SIZE_MB", AttrOther);
    ("setup_directories", AttrOther); ("validate_config", AttrOther) ].

Fixpoint class_lookup (names : list (string * class_attr)) (name : string)
    : option class_attr :=
  match names with
  | [] => None
  | (n, a) :: rest => if String.eqb n name then Some a else class_lookup rest name
  end.

(** [Config.<name>]: a name the class does not define raises. *)
Definition Config_getattr (name : string) : result class_attr :=
  match class_lookup Config_class name with
  | Some a => Ok a
  | None =>
      Raise (Exn AttributeError ("type object 'Config' has no attribute '" ++ name ++ "'"))
  end.

Section LegalRAGApp.
Context `{L : Libraries} `{R : Runtime}.
Variable cfg : Config.
(** [str(Config.UPLOADS_DIR)]. *)
Variable UPLOADS_DIR : string.

(** The application: its RAG system, of which the document processor is
    the part that changes, and the files it has taken in. *)
Record LegalRAGApp : Type := {
  rag_system : DocumentProcessor;
  uploaded_files : list string
}.

(** [__init__], once the configuration is validated. *)
Definition LegalRAGApp_init : LegalRAGApp :=
  {| rag_system := DocumentProcessor_init; uploaded_files := [] |}.

(** How the loop over the files of [process_files] ends: with the
    [return] inside it, with an exception, or at the end of the list. *)
Inductive loop_end : Type :=
  | Returned (status : string)
  | Raised (e : exn)
  | Completed (file_paths file_info_lines : list string).

(** The loop of [process_files], with the disk and [self.uploaded_files]
    as each round leaves them; [None] when [save_uploaded_file] has not
    found a free name within [fuel] rounds. *)
Fixpoint save_all (fuel : nat) (files : list uploaded) (file_paths file_info_lines : list string)
    (fs : filesystem) (tracked : list string)
    : option (loop_end * filesystem * list string) :=
  match files with
  | [] => Some (Completed file_paths file_info_lines, fs, tracked)
  | file :: rest =>
      match Config_getattr "LEGAL_DOCUMENT_TYPES" with
      | Raise e => Some (Raised e, fs, tracked)
      | Ok AttrOther =>
          Some (Raised (Exn TypeError "argument is not iterable"), fs, tracked)
      | Ok (AttrStrs allowed) =>
          if negb (validate_file_type (up_name file) allowed)
          then Some (Returned ("❌ Unsupported file type: " ++ path_suffix (up_name file)),
                     fs, tracked)
          else
            match save_uploaded_file fuel fs file UPLOADS_DIR with
            | None => None
            | Some (file_path, fs') =>
                let file_paths := (file_paths ++ [file_path])%list in
                match format_file_info fs' file_path with
                | Raise e => Some (Raised e, fs', tracked)
                | Ok info =>
                    let file_info_lines := (file_info_lines ++ [info])%list in
                    let tracked :=
                      if decide (file_path ∈ tracked) then tracked
                      else (tracked ++ [file_path])%list in
                    save_all fuel rest file_paths file_info_lines fs' tracked
                end
            end
      end
  end.

(** The dictionary [get_vectorestore_stats] returns. *)
Definition stats_dict (stats : vectorstore_stats) : gmap string pyval :=
  <["total_documents" := VInt (total_documents stats)]>
    (<["total_chunks" := VInt (stats_total_chunks stats)]>
       (<["processed_files" := VInt (processed_files stats)]> ∅)).

(** The three texts [process_files] and [clear_documents] show.  The
    first is [None] when it is Python's [None]. *)
Definition status_texts : Type := option string * string * string.

Definition error_texts (status : string) : status_texts := (Some status, "", "").

(** [process_files]: the texts, the disk and the application afterwards. *)
Definition process_files (fuel : nat) (files : list uploaded) (fs : filesystem)
    (self : LegalRAGApp) : option (status_texts * filesystem * LegalRAGApp) :=
  match files with
  | [] => Some (error_texts "❌ No files uploaded", fs, self)
  | _ =>
      match save_all fuel files [] [] fs (uploaded_files self) with
      | None => None
      | Some (Returned status, fs', tracked) =>
          Some (error_texts status, fs',
                {| rag_system := rag_system self; uploaded_files := tracked |})
      | Some (Raised e, fs', tracked) =>
          Some (error_texts ("❌ Error processing files: " ++ exn_text e), fs',
                {| rag_system := rag_system self; uploaded_files := tracked |})
      | Some (Completed file_paths file_info_lines, fs', tracked) =>
          let '(processing, system) :=
            LegalRAGSystem_process_documents cfg fs' file_paths (rag_system self) in
          let self' := {| rag_system := system; uploaded_files := tracked |} in
          match processing with
          | Raise e =>
              Some (error_texts ("❌ Error processing files: " ++ exn_text e), fs', self')
          | Ok processing =>
              let summary := create_processing_summary (Some processing) in
              let file_info := String.concat nl file_info_lines in
              match fst (get_system_stats cfg system) with
              | Raise e =>
                  Some (error_texts ("❌ Error processing files: " ++ exn_text e), fs', self')
              | Ok stats =>
                  match format_metadata (stats_dict (document_stats stats)) with
                  | Raise e =>
                      Some (error_texts ("❌ Error processing files: " ++ exn_text e),
                            fs', self')
                  | Ok stats_info => Some ((summary, file_info, stats_info), fs', self')
                  end
              end
          end
      end
  end.









End LegalRAGApp.

(** ** Small implementations of the libraries, to run the model *)

Module Sample.

(** The part of a file name from its last dot on; empty without a dot. *)
Fixpoint suffix (s : string) : string :=
  match s with
  | EmptyString => ""
  | String c rest =>
      match suffix rest with
      | EmptyString => if Ascii.eqb c (Ascii.ascii_of_nat 46) then s else ""
      | found => found
      end
  end.

Definition text_of (data : list Byte.byte) : string := string_of_list_byte data.

Definition one_page (data : list Byte.byte) : Document :=
  {| page_content := text_of data; md_source := None; md_file_type := None;
     md_file_size_mn := None; md_file_hash := None |}.

(** The digest is only ever asked of the empty input, where it is md5's.
    File names carry no directory and lower-case suffixes, every loader
    yields one page, every page is one chunk, and the index is the list
    of its chunks, searched by taking the first [k]. *)
#[local] Instance libraries : Libraries := {|
  md5_hexdigest := fun data =>
    match data with
    | [] => "d41d8cd98f00b204e9800998ecf8427e"
    | _ => "digest of " ++ text_of data
    end;
  path_name := fun p => p;
  path_suffix := suffix;
  str_lower := fun s => s;
  format_1f := fun _ => "";
  format_int := fun _ => "";
  round2 := fun q => q;
  loader_load := fun _ _ data => Ok [one_page data];
  split_documents := fun docs => Ok docs;
  store := list Document;
  from_documents := fun chunks => Ok chunks;
  add_documents := fun v chunks => Ok (v ++ chunks)%list;
  similarity_search := fun v _ k => Ok (firstn (Z.to_nat k) v);
  docstore_len := fun v => len v
|}.

Definition clause : Document :=
  {| page_content := "Either party may terminate on 30 days notice.";
     md_source := Some "lease.txt"; md_file_type := Some ".txt";
     md_file_size_mn := Some (0 # 1)%Q;
     md_file_hash := Some "d41d8cd98f00b204e9800998ecf8427e" |}.

(** An index holding one chunk of one processed file. *)
Definition indexed : DocumentProcessor :=
  {| vectorstore := Some [clause];
     processed_doc := {[ "d41d8cd98f00b204e9800998ecf8427e" := [clause] ]} |}.

Definition reply (text : string) (parsed : loads_result) : AIMessage :=
  {| content := text; json_loads_content := parsed |}.

(** A verifier that finds the answer wanting, whatever it is shown. *)
Definition needs_correction : verdict :=
  {| v_verification_status := Some "NEEDS_CORRECTION";
     v_confidence := Some (3 # 10)%Q;
     v_issues := Some ["The notice period is not in the context"];
     v_missing_information := Some [];
     v_legal_concerns := Some [] |}.

Definition stubborn_llm : llm_oracle :=
  fun _ p =>
    match p with
    | verification_prompt _ _ _ => Ok (reply "{...}" (Dict needs_correction))
    | _ => Ok (reply "The notice period is 30 days." JSONDecodeError)
    end.

(** A verifier that calls the answer verified, with little confidence. *)
Definition unsure : verdict :=
  {| v_verification_status := Some "VERIFIED";
     v_confidence := Some (4 # 10)%Q;
     v_issues := Some [];
     v_missing_information := Some [];
     v_legal_concerns := Some [] |}.

Definition unsure_llm : llm_oracle :=
  fun _ p =>
    match p with
    | verification_prompt _ _ _ => Ok (reply "{...}" (Dict unsure))
    | _ => Ok (reply "The notice period is 30 days." JSONDecodeError)
    end.

(** A verifier that is satisfied at once. *)
Definition satisfied : verdict :=
  {| v_verification_status := Some "VERIFIED";
     v_confidence := Some (9 # 10)%Q;
     v_issues := Some [];
     v_missing_information := Some [];
     v_legal_concerns := Some [] |}.

Definition satisfied_llm : llm_oracle :=
  fun _ p =>
    match p with
    | verification_prompt _ _ _ => Ok (reply "{...}" (Dict satisfied))
    | _ => Ok (reply "The notice period is 30 days." JSONDecodeError)
    end.

(** The JSON text of an empty object. *)
Definition empty_object : verdict :=
  {| v_verification_status := None; v_confidence := None; v_issues := None;
     v_missing_information := None; v_legal_concerns := None |}.

(** A disk with one text file and one program. *)
Definition disk : filesystem :=
  fun p =>
    if String.eqb p "lease.txt" then Some (list_byte_of_string "Either party may terminate.")
    else if String.eqb p "setup.exe" then Some (list_byte_of_string "MZ")
    else None.

(** A verifier that replies with an empty JSON object. *)
Definition terse_llm : llm_oracle :=
  fun _ p =>
    match p with
    | verification_prompt _ _ _ => Ok (reply "{}" (Dict empty_object))
    | _ => Ok (reply "The notice period is 30 days." JSONDecodeError)
    end.

(** The configuration of [config.py] with a budget of one iteration. *)
Definition single_pass : Config := {|
  LLM_MODEL := LLM_MODEL Config_default;
  CHUNK_SIZE := CHUNK_SIZE Config_default;
  CHUNK_OVERLAP := CHUNK_OVERLAP Config_default;
  MAX_RETRIEVAL_DOCS := MAX_RETRIEVAL_DOCS Config_default;
  MIN_CONFIDENCE_THRESHOLD := MIN_CONFIDENCE_THRESHOLD Config_default;
  MAX_CORRECTION_ITERATIONS := 1;
  MAX_FILE_SIZE_MB := MAX_FILE_SIZE_MB Config_default
|}.

(** A model whose every reply is prose. *)
Definition prose_llm : llm_oracle :=
  fun _ _ => Ok (reply "The notice period is 30 days." JSONDecodeError).

Definition notice_period : string := "What is the notice period?".

(** A state as [verify] leaves it on the first round of [stubborn_llm]. *)
Definition found_wanting : RAGState :=
  {| question := notice_period;
     context := [page_content clause];
     answer := "The notice period is 30 days.";
     confidence := 3 # 10;
     sources := ["lease.txt"];
     corrections_made := ["The notice period is not in the context"];
     verification_status := "NEEDS_CORRECTION";
     iteration_count := 1;
     metadata := ∅ |}.

(** A run about to execute [verify] for the first time. *)
Definition before_verify : run :=
  {| next := verify;
     state_of :=
       {| question := notice_period;
          context := [page_content clause];
          answer := "The notice period is 30 days.";
          confidence := 0;
          sources := ["lease.txt"];
          corrections_made := [];
          verification_status := "";
          iteration_count := 1;
          metadata := ∅ |};
     llm_calls := 1;
     executed := [generate; retrieve] |}.

(** A run about to execute [correct] for the first time. *)
Definition before_correct : run :=
  {| next := correct; state_of := found_wanting; llm_calls := 2;
     executed := [verify; generate; retrieve] |}.

(** A runtime for the helpers: questions are stripped of spaces at both
    ends, a path is its directory, a slash and its name, and the percent
    of a confidence is taken on rationals. *)
Fixpoint lstrip (s : string) : string :=
  match s with
  | String c rest => if Ascii.eqb c (Ascii.ascii_of_nat 32) then lstrip rest else s
  | EmptyString => EmptyString
  end.

#[local] Instance runtime : Runtime := {|
  str_strip := fun s => String.rev (lstrip (String.rev (lstrip s)));
  percent_int := fun q => (Qnum (q * 100) / Zpos (Qden (q * 100)))%Z;
  format_dot1f := fun _ => "0.0";
  path_join := fun directory name => directory +:+ "/" +:+ name;
  repr_str := fun s => "'" +:+ s +:+ "'"
|}.

(** A disk whose upload directory already holds two leases. *)
Definition uploads : filesystem :=
  fun p =>
    if String.eqb p "uploads/lease.txt" then Some (list_byte_of_string "first")
    else if String.eqb p "uploads/lease_1.txt" then Some (list_byte_of_string "second")
    else None.

Definition new_lease : uploaded :=
  {| up_name := "lease.txt"; up_data := list_byte_of_string "third" |}.

(** A verifier that is sure of a verified answer to the degree [conf]. *)
Definition verified_with (conf : Q) : verdict :=
  {| v_verification_status := Some "VERIFIED";
     v_confidence := Some conf;
     v_issues := Some [];
     v_missing_information := Some [];
     v_legal_concerns := Some [] |}.

(** Verdicts of confidence 0.4, 0.6 and then 0.9. *)
Definition warming_llm : llm_oracle :=
  fun n p =>
    match p with
    | verification_prompt _ _ _ =>
        Ok (reply "{...}"
              (Dict (verified_with (if (n <? 3)%nat then 4 # 10
                                    else if (n <? 5)%nat then 6 # 10
                                    else 9 # 10))))
    | _ => Ok (reply "The notice period is 30 days." JSONDecodeError)
    end.

End Sample.

(** * Properties *)

#[global] Instance node_eq_dec : EqDecision node.
Proof. solve_decision. Defined.

(** How many times [nd] was executed in a run. *)
Definition times_executed (nd : node) (r : run) : nat :=
  length (filter (fun x => x = nd) (executed r)).

(** What a reply of the verifier adds to [corrections_made]. *)
Definition issues_of (parsed : loads_result) : list string :=
  match parsed with
  | JSONDecodeError => ["Verification parsing error"]
  | NonDict _ => []
  | Dict d =>
      get_or_empty (v_issues d) ++ get_or_empty (v_missing_information d)
        ++ get_or_empty (v_legal_concerns d)
  end.

(** The model answers every call, and the verifier's replies satisfy [P]. *)
Definition verifier_replies (P : loads_result -> Prop) (llm : llm_oracle) : Prop :=
  forall n p, exists msg,
    llm n p = Ok msg
    /\ match p with
       | verification_prompt _ _ _ => P (json_loads_content msg)
       | _ => True
       end.

(** A reply on which [verify] leaves a state that asks for a correction:
    text that is not JSON, or a verdict whose status is NEEDS_CORRECTION
    or whose confidence is under the threshold. *)
Definition asks_for_correction (cfg : Config) (parsed : loads_result) : Prop :=
  match parsed with
  | JSONDecodeError => True
  | NonDict _ => False
  | Dict d =>
      exists status conf,
        v_verification_status d = Some status /\ v_confidence d = Some conf
        /\ (status = "NEEDS_CORRECTION" \/ (conf < MIN_CONFIDENCE_THRESHOLD cfg)%Q)
  end.

(** The verifier is never satisfied. *)
Definition never_satisfied (cfg : Config) (llm : llm_oracle) : Prop :=
  verifier_replies (asks_for_correction cfg) llm.

(** A reply [verify_answer] can decode: text that is not JSON, or a
    dictionary with a status and a confidence, each of the three lists
    absent or a list of strings. *)
Definition decodes (parsed : loads_result) : Prop :=
  match parsed with
  | JSONDecodeError => True
  | NonDict _ => False
  | Dict d => is_Some (v_verification_status d) /\ is_Some (v_confidence d)
  end.

(** A verdict that calls for no correction: a status other than
    NEEDS_CORRECTION with a confidence that reaches the threshold. *)
Definition accepts (cfg : Config) (parsed : loads_result) : Prop :=
  match parsed with
  | Dict d =>
      exists status conf,
        v_verification_status d = Some status /\ v_confidence d = Some conf
        /\ status <> "NEEDS_CORRECTION" /\ ~ (conf < MIN_CONFIDENCE_THRESHOLD cfg)%Q
  | _ => False
  end.

(** The sum of [chunks_added] over the results that report success. *)
Fixpoint chunks_of_successes (results : list file_result) : Z :=
  match results with
  | [] => 0
  | res :: rest =>
      (if success res then chunks_added res else 0) + chunks_of_successes rest
  end.

(** The state after ingesting the files of [jobs] one after the other. *)
Fixpoint ingest_all `{L : Libraries} (cfg : Config) (jobs : list (filesystem * string))
    (self : DocumentProcessor) : DocumentProcessor :=
  match jobs with
  | [] => self
  | (fs, file_path) :: rest =>
      ingest_all cfg rest (snd (process_uploaded_file cfg fs file_path self))
  end.

(** What the calls of [process_uploaded_file] on the files of [jobs],
    one after the other, return. *)
Fixpoint ingest_results `{L : Libraries} (cfg : Config) (jobs : list (filesystem * string))
    (self : DocumentProcessor) : list (result file_result) :=
  match jobs with
  | [] => []
  | (fs, file_path) :: rest =>
      let '(res, self') := process_uploaded_file cfg fs file_path self in
      res :: ingest_results cfg rest self'
  end.

Section Predicates.
Context `{L : Libraries}.
Variable cfg : Config.
Variable self : DocumentProcessor.
Variable llm : llm_oracle.

(** One step of a run, by the node it executes. *)
Inductive step_shape (r r' : run) : Prop :=
  | at_retrieve :
      next r = retrieve -> next r' = generate ->
      retrieve_context cfg self (state_of r) = Ok (state_of r') ->
      step_shape r r'
  | at_generate :
      next r = generate -> next r' = verify ->
      generate_answer (llm (llm_calls r)) (state_of r) = Ok (state_of r') ->
      step_shape r r'
  | at_verify :
      next r = verify -> next r' = correct \/ next r' = finalize ->
      conditional_edges (should_correct cfg (state_of r')) = Some (next r') ->
      verify_answer (llm (llm_calls r)) (state_of r) = Ok (state_of r') ->
      step_shape r r'
  | at_correct :
      next r = correct -> next r' = verify ->
      correct_answer (llm (llm_calls r)) (state_of r) = Ok (state_of r') ->
      step_shape r r'
  | at_finalize :
      next r = finalize -> next r' = END ->
      state_of r' = finalize_response (state_of r) ->
      step_shape r r'.

(** Before [generate] has run the counter is 0 and it has run no time;
    afterwards the counter is 1 and it has run once. *)
Definition generated_once (r : run) : Prop :=
  ((next r = retrieve \/ next r = generate)
   /\ times_executed generate r = 0%nat /\ iteration_count (state_of r) = 0)
  \/ (next r <> retrieve /\ next r <> generate
      /\ times_executed generate r = 1%nat /\ iteration_count (state_of r) = 1).

(** The documents found for the question, as [retrieve] stored them. *)
Definition retrieved_once (q : string) (r : run) : Prop :=
  question (state_of r) = q
  /\ ((next r = retrieve /\ times_executed retrieve r = 0%nat
       /\ context (state_of r) = [] /\ sources (state_of r) = [])
      \/ (next r <> retrieve /\ times_executed retrieve r = 1%nat
          /\ exists docs,
               fst (search_documents cfg q None self) = Ok docs
               /\ context (state_of r) = map page_content docs
               /\ sources (state_of r) = map source_or_unknown docs)).

(** Where a run can be while the verifier is never satisfied. *)
Definition looping (q : string) (r : run) : Prop :=
  question (state_of r) = q
  /\ ((next r = retrieve /\ iteration_count (state_of r) = 0)
      \/ (next r = generate /\ iteration_count (state_of r) = 0)
      \/ ((next r = verify \/ next r = correct) /\ iteration_count (state_of r) = 1)).

(** The three ways [process_uploaded_file] ends: an error result, with
    [self] untouched; the file was seen before, with [self] untouched; or
    its chunks are indexed and recorded under a hash not seen before. *)
Inductive ingested (fs : filesystem) (p : string) (self : DocumentProcessor)
    (res : file_result) (self' : DocumentProcessor) : Prop :=
  | ingest_failed (e : exn) :
      res = {| success := false; message := "Error processing file: " ++ exn_text e;
               chunks_added := 0; total_chunks := 0 |} ->
      self' = self ->
      ingested fs p self res self'
  | ingest_seen (h : string) (chunks : list Document) :
      get_file_hash fs p = Ok h ->
      processed_doc self !! h = Some chunks ->
      res = {| success := true; message := "File already processed";
               chunks_added := 0; total_chunks := len chunks |} ->
      self' = self ->
      ingested fs p self res self'
  | ingest_new (h : string) (chunks : list Document) :
      get_file_hash fs p = Ok h ->
      processed_doc self !! h = None ->
      res = {| success := true; message := "document processed successfully";
               chunks_added := len chunks; total_chunks := len chunks |} ->
      processed_doc self' = <[h := chunks]> (processed_doc self) ->
      ingested fs p self res self'.

End Predicates.

(** The metadata [retrieve_context] builds from the documents found. *)
Definition retrieved_metadata (docs : list Document) : gmap string pyval :=
  <["retrieved_docs" := VInt (len docs)]>
    (<["source_files" := VStrs (remove_dups (map source_or_unknown docs))]>
       (<["chunk_sizes" := VInts (map (fun doc => Z.of_nat (String.length (page_content doc))) docs)]> ∅)).

(** The metadata of a state that [finalize] has left. *)
Definition finalized_metadata (docs : list Document) (st : RAGState) : gmap string pyval :=
  <["total_corrections" := VInt (len (corrections_made st))]>
    (<["final_iteration_count" := VInt (iteration_count st)]> (retrieved_metadata docs)).

(** How often each node has run, by the node that comes next: a
    verification follows the generation and every correction. *)
Definition counted (r : run) : Prop :=
  llm_calls r
  = (times_executed generate r + times_executed verify r + times_executed correct r)%nat
  /\ match next r with
     | retrieve => executed r = []
     | generate =>
         times_executed retrieve r = 1%nat /\ times_executed generate r = 0%nat
         /\ times_executed verify r = 0%nat /\ times_executed correct r = 0%nat
         /\ times_executed finalize r = 0%nat
     | verify =>
         times_executed retrieve r = 1%nat /\ times_executed generate r = 1%nat
         /\ times_executed verify r = times_executed correct r
         /\ times_executed finalize r = 0%nat
     | correct | finalize =>
         times_executed retrieve r = 1%nat /\ times_executed generate r = 1%nat
         /\ times_executed verify r = S (times_executed correct r)
         /\ times_executed finalize r = 0%nat
     | END =>
         times_executed retrieve r = 1%nat /\ times_executed generate r = 1%nat
         /\ times_executed verify r = S (times_executed correct r)
         /\ times_executed finalize r = 1%nat
     end.

(** The metadata along a run: empty before [retrieve], what [retrieve]
    built until [finalize], and with the two totals at [END]. *)
Definition metadata_known `{L : Libraries} (cfg : Config) (self : DocumentProcessor)
    (q : string) (r : run) : Prop :=
  question (state_of r) = q
  /\ match next r with
     | retrieve => True
     | END =>
         exists docs,
           fst (search_documents cfg q None self) = Ok docs
           /\ metadata (state_of r) = finalized_metadata docs (state_of r)
     | _ =>
         exists docs,
           fst (search_documents cfg q None self) = Ok docs
           /\ metadata (state_of r) = retrieved_metadata docs
     end.

(** A processor that has indexed nothing, or the chunks of one file
    under the digest of the empty input. *)
Definition at_most_one_file `{L : Libraries} (self : DocumentProcessor) : Prop :=
  (vectorstore self = None /\ processed_doc self = ∅)
  \/ (exists v chunks,
        vectorstore self = Some v
        /\ processed_doc self = {[ md5_hexdigest [] := chunks ]}).

(** The [k]-th path [save_uploaded_file] tries. *)
Definition candidate `{R : Runtime} (upload_dir name : string) (k : nat) : string :=
  match k with
  | O => path_join upload_dir name
  | S _ => path_join upload_dir (renamed name (Z.of_nat k))
  end.


(** The verifier asks for a correction on its first [k] verdicts and
    accepts from then on; the model answers every call.  The [j]-th
    verification of a query is the call of index [2 * j + 1]. *)
Definition satisfied_after (cfg : Config) (k : nat) (llm : llm_oracle) : Prop :=
  forall n p, exists msg,
    llm n p = Ok msg
    /\ match p with
       | verification_prompt _ _ _ =>
           if (n <? 2 * k + 1)%nat
           then asks_for_correction cfg (json_loads_content msg)
           else accepts cfg (json_loads_content msg)
       | _ => True
       end.

(** A run that waits for a verdict, the model called [calls] times. *)
Definition awaiting_verdict (q : string) (calls : nat) (r : run) : Prop :=
  next r = verify /\ llm_calls r = calls
  /\ question (state_of r) = q /\ iteration_count (state_of r) = 1.

(** The results that report a new file indexed. *)
Definition newly_indexed (results : list file_result) : list file_result :=
  filter (fun res => message res = "document processed successfully") results.

(** ** Lemmas on the model *)

Lemma Qltb_lt (a b : Q) : Qltb a b = true <-> (a < b)%Q.
Proof.
  unfold Qltb. rewrite Qlt_alt.
  destruct (a ?= b)%Q; split; intros H; congruence.
Qed.

Lemma rbind_Ok {A B} (m : result A) (k : A -> result B) (b : B) :
  (m ≫= k) = Ok b -> exists a, m = Ok a /\ k a = Ok b.
Proof.
  destruct m as [a|e]; simpl; intros H; [eauto | discriminate].
Qed.

Section Graph.
Context `{L : Libraries}.
Variable cfg : Config.
Variable self : DocumentProcessor.
Variable llm : llm_oracle.

Lemma should_correct_budget (state : RAGState) :
  MAX_CORRECTION_ITERATIONS cfg <= iteration_count state ->
  should_correct cfg state = "finalize".
Proof.
  intros H. unfold should_correct.
  destruct (Z.leb_spec (MAX_CORRECTION_ITERATIONS cfg) (iteration_count state)); [reflexivity | lia].
Qed.

Lemma should_correct_within (state : RAGState) :
  iteration_count state < MAX_CORRECTION_ITERATIONS cfg ->
  should_correct cfg state =
    if String.eqb (verification_status state) "NEEDS_CORRECTION"
       || Qltb (confidence state) (MIN_CONFIDENCE_THRESHOLD cfg)
    then "correct" else "finalize".
Proof.
  intros H. unfold should_correct.
  destruct (Z.leb_spec (MAX_CORRECTION_ITERATIONS cfg) (iteration_count state)); [lia | reflexivity].
Qed.

(** The two keys [should_correct] can return are keys of the mapping. *)
Lemma should_correct_routes (state : RAGState) :
  conditional_edges (should_correct cfg state) = Some correct
  \/ conditional_edges (should_correct cfg state) = Some finalize.
Proof.
  unfold should_correct.
  repeat match goal with |- context [if ?b then _ else _] => destruct b end; auto.
Qed.

(** *** What each node changes *)

Lemma retrieve_context_spec (st st' : RAGState) :
  retrieve_context cfg self st = Ok st' ->
  exists docs,
    fst (search_documents cfg (question st) None self) = Ok docs
    /\ context st' = map page_content docs
    /\ sources st' = map source_or_unknown docs
    /\ question st' = question st
    /\ corrections_made st' = corrections_made st
    /\ iteration_count st' = iteration_count st.
Proof.
  unfold retrieve_context. intros H.
  apply rbind_Ok in H as (docs & Hdocs & H).
  injection H as <-. exists docs. simpl. repeat split; auto.
Qed.

Lemma generate_answer_spec invoke (st st' : RAGState) :
  generate_answer invoke st = Ok st' ->
  context st' = context st /\ sources st' = sources st
  /\ question st' = question st
  /\ corrections_made st' = corrections_made st
  /\ iteration_count st' = iteration_count st + 1.
Proof.
  unfold generate_answer. intros H.
  apply rbind_Ok in H as (msg & _ & H). injection H as <-. simpl. repeat split; auto.
Qed.

Lemma verify_answer_spec invoke (st st' : RAGState) :
  verify_answer invoke st = Ok st' ->
  exists msg,
    invoke (verification_prompt (question st) (answer st)
              (String.concat (nl ++ nl) (context st))) = Ok msg
    /\ corrections_made st' = (corrections_made st ++ issues_of (json_loads_content msg))%list
    /\ context st' = context st /\ sources st' = sources st
    /\ question st' = question st
    /\ answer st' = answer st
    /\ iteration_count st' = iteration_count st.
Proof.
  unfold verify_answer. intros H.
  apply rbind_Ok in H as (msg & Hmsg & H). exists msg. split; [exact Hmsg |].
  destruct (json_loads_content msg) as [| ty | d]; [| discriminate |].
  - injection H as <-. simpl. repeat split; auto.
  - destruct (v_verification_status d); [| discriminate].
    destruct (v_confidence d); [| discriminate].
    injection H as <-. simpl. rewrite <- !app_assoc. repeat split; auto.
Qed.

Lemma correct_answer_spec invoke (st st' : RAGState) :
  correct_answer invoke st = Ok st' ->
  corrections_made st' = (corrections_made st ++ ["Answer corrected based on verification"])%list
  /\ context st' = context st /\ sources st' = sources st
  /\ question st' = question st
  /\ iteration_count st' = iteration_count st
  /\ confidence st' = confidence st
  /\ verification_status st' = verification_status st.
Proof.
  unfold correct_answer. intros H.
  apply rbind_Ok in H as (msg & _ & H). injection H as <-. simpl. repeat split; auto.
Qed.

(** *** One step, by the node executed *)

Lemma step_inv (r r' : run) :
  step cfg self llm r = Ok r' ->
  (next r = END /\ r' = r)
  \/ (next r <> END /\ executed r' = next r :: executed r /\ step_shape cfg self llm r r').
Proof.
  unfold step. intros H.
  destruct (next r) eqn:Hnext; [| | | | | injection H as <-; left; auto]; right;
    (split; [discriminate |]).
  - apply rbind_Ok in H as (st & Hst & H). injection H as <-.
    split; [simpl; now rewrite Hnext | now apply at_retrieve].
  - apply rbind_Ok in H as (st & Hst & H). injection H as <-.
    split; [simpl; now rewrite Hnext | now apply at_generate].
  - apply rbind_Ok in H as (st & Hst & H).
    destruct (should_correct_routes st) as [Hr | Hr]; rewrite Hr in H; injection H as <-;
      (split; [simpl; now rewrite Hnext | apply at_verify; simpl; auto]).
  - apply rbind_Ok in H as (st & Hst & H). injection H as <-.
    split; [simpl; now rewrite Hnext | now apply at_correct].
  - injection H as <-.
    split; [simpl; now rewrite Hnext | now apply at_finalize].
Qed.

Lemma steps_S (n : nat) (r r'' : run) :
  steps cfg self llm (S n) r = Ok r'' ->
  exists r', step cfg self llm r = Ok r' /\ steps cfg self llm n r' = Ok r''.
Proof. simpl. apply rbind_Ok. Qed.

(** A property kept by every step holds along every run. *)
Lemma steps_invariant (I : run -> Prop) :
  (forall r r', I r -> step cfg self llm r = Ok r' -> I r') ->
  forall n r r', I r -> steps cfg self llm n r = Ok r' -> I r'.
Proof.
  intros Hstep. induction n as [| n IH]; intros r r' Hr H.
  - injection H as <-. exact Hr.
  - apply steps_S in H as (r1 & H1 & H2). eauto.
Qed.

Lemma steps_add (n m : nat) (r r1 r2 : run) :
  steps cfg self llm n r = Ok r1 ->
  steps cfg self llm m r1 = Ok r2 ->
  steps cfg self llm (n + m) r = Ok r2.
Proof.
  revert r. induction n as [| n IH]; intros r H1 H2.
  - injection H1 as <-. exact H2.
  - apply steps_S in H1 as (r' & Hs & H1). simpl. rewrite Hs. simpl. eauto.
Qed.

End Graph.

Section Invariants.
Context `{L : Libraries}.
Variable cfg : Config.
Variable self : DocumentProcessor.
Variable llm : llm_oracle.

Lemma times_executed_step (nd : node) (r r' : run) :
  executed r' = next r :: executed r ->
  times_executed nd r' = ((if decide (next r = nd) then 1 else 0) + times_executed nd r)%nat.
Proof.
  unfold times_executed. intros ->. rewrite filter_cons.
  destruct (decide (next r = nd)); reflexivity.
Qed.

Lemma generated_once_start (q : string) : generated_once (start q).
Proof. left. simpl. auto. Qed.

Lemma generated_once_step (r r' : run) :
  generated_once r -> step cfg self llm r = Ok r' -> generated_once r'.
Proof.
  intros Hinv Hstep.
  destruct (step_inv cfg self llm r r' Hstep) as [[_ ->] | (_ & Hex & Hshape)]; [exact Hinv |].
  pose proof (times_executed_step generate r r' Hex) as Ht.
  destruct Hshape as [Hn Hn' Hf | Hn Hn' Hf | Hn Hn' _ Hf | Hn Hn' Hf | Hn Hn' Hf];
    rewrite Hn in Ht; simpl in Ht;
    destruct Hinv as [([Hr | Hr] & Hc & Hi) | (Hr1 & Hr2 & Hc & Hi)]; try congruence.
  - apply retrieve_context_spec in Hf as (docs & _ & _ & _ & _ & _ & Hit).
    left. rewrite Hn'. split; [auto |]. split; [lia | congruence].
  - apply generate_answer_spec in Hf as (_ & _ & _ & _ & Hit).
    right. rewrite Hn'. repeat split; try discriminate; lia.
  - apply verify_answer_spec in Hf as (msg & _ & _ & _ & _ & _ & _ & Hit).
    right. repeat split; try (destruct Hn' as [-> | ->]; discriminate); lia.
  - apply correct_answer_spec in Hf as (_ & _ & _ & _ & Hit & _).
    right. rewrite Hn'. repeat split; try discriminate; lia.
  - right. rewrite Hn', Hf. simpl. repeat split; try discriminate; lia.
Qed.

Lemma retrieved_once_start (q : string) : retrieved_once cfg self q (start q).
Proof. split; [reflexivity |]. left. simpl. auto. Qed.

Lemma retrieved_once_step (q : string) (r r' : run) :
  retrieved_once cfg self q r -> step cfg self llm r = Ok r' -> retrieved_once cfg self q r'.
Proof.
  intros [Hq Hinv] Hstep.
  destruct (step_inv cfg self llm r r' Hstep) as [[_ ->] | (_ & Hex & Hshape)];
    [split; assumption |].
  pose proof (times_executed_step retrieve r r' Hex) as Ht.
  destruct Hshape as [Hn Hn' Hf | Hn Hn' Hf | Hn Hn' _ Hf | Hn Hn' Hf | Hn Hn' Hf];
    rewrite Hn in Ht; simpl in Ht;
    destruct Hinv as [(Hr & Hc & Hctx & Hsrc) | (Hr & Hc & docs & Hd & Hctx & Hsrc)];
    try congruence.
  - apply retrieve_context_spec in Hf as (docs & Hd & Hctx' & Hsrc' & Hq' & _).
    split; [congruence |]. right. rewrite Hn'. split; [discriminate |]. split; [lia |].
    exists docs. rewrite <- Hq. auto.
  - apply generate_answer_spec in Hf as (Hctx' & Hsrc' & Hq' & _).
    split; [congruence |]. right. rewrite Hn'. split; [discriminate |]. split; [lia |].
    exists docs. repeat split; congruence.
  - apply verify_answer_spec in Hf as (msg & _ & _ & Hctx' & Hsrc' & Hq' & _).
    split; [congruence |]. right.
    split; [destruct Hn' as [-> | ->]; discriminate |]. split; [lia |].
    exists docs. repeat split; congruence.
  - apply correct_answer_spec in Hf as (_ & Hctx' & Hsrc' & Hq' & _).
    split; [congruence |]. right. rewrite Hn'. split; [discriminate |]. split; [lia |].
    exists docs. repeat split; congruence.
  - unfold retrieved_once. rewrite Hf. split; [exact Hq |]. right. rewrite Hn'. split; [discriminate |].
    split; [lia |]. exists docs. simpl. auto.
Qed.

(** No step shortens or rewrites [corrections_made]. *)
Lemma corrections_step (r r' : run) :
  step cfg self llm r = Ok r' ->
  corrections_made (state_of r) `prefix_of` corrections_made (state_of r').
Proof.
  intros Hstep.
  destruct (step_inv cfg self llm r r' Hstep) as [[_ ->] | (_ & _ & Hshape)]; [reflexivity |].
  destruct Hshape as [_ _ Hf | _ _ Hf | _ _ _ Hf | _ _ Hf | _ _ Hf].
  - apply retrieve_context_spec in Hf as (docs & _ & _ & _ & _ & -> & _). reflexivity.
  - apply generate_answer_spec in Hf as (_ & _ & _ & -> & _). reflexivity.
  - apply verify_answer_spec in Hf as (msg & _ & -> & _). apply prefix_app_r. reflexivity.
  - apply correct_answer_spec in Hf as (-> & _). apply prefix_app_r. reflexivity.
  - rewrite Hf. reflexivity.
Qed.

Lemma corrections_steps (n : nat) (r r' : run) :
  steps cfg self llm n r = Ok r' ->
  corrections_made (state_of r) `prefix_of` corrections_made (state_of r').
Proof.
  revert r. induction n as [| n IH]; intros r H.
  - injection H as <-. reflexivity.
  - apply steps_S in H as (r1 & H1 & H2).
    etransitivity; [apply (corrections_step _ _ H1) | apply (IH _ H2)].
Qed.

End Invariants.

Section Claims.
Context `{L : Libraries}.
Variable cfg : Config.
Variable self : DocumentProcessor.
Variable llm : llm_oracle.

(** C2. Along every run of a query, whatever the model replies:
    [generate] has been executed exactly once and [iteration_count] is 1 in
    every state from [verify] on (and 0 times, with the counter at 0,
    before); the edge leaving [correct] leads to [verify]; and a step that
    does not execute [generate] leaves [iteration_count] as it was. *)
Theorem generate_answer_runs_once (q : string) (n : nat) (r : run) :
  steps cfg self llm n (start q) = Ok r ->
  (next r = retrieve \/ next r = generate ->
     times_executed generate r = 0%nat /\ iteration_count (state_of r) = 0)
  /\ (next r <> retrieve -> next r <> generate ->
        times_executed generate r = 1%nat /\ iteration_count (state_of r) = 1)
  /\ (forall r', step cfg self llm r = Ok r' -> next r = correct -> next r' = verify)
  /\ (forall r', step cfg self llm r = Ok r' -> next r <> generate ->
        iteration_count (state_of r') = iteration_count (state_of r)).
Proof.
  intros Hrun.
  assert (Hinv : generated_once r).
  { eapply (steps_invariant cfg self llm generated_once); [| apply generated_once_start | exact Hrun].
    apply generated_once_step. }
  repeat split.
  - destruct Hinv as [(_ & Hc & _) | (Hr1 & Hr2 & _)]; [exact Hc |].
    destruct H; contradiction.
  - destruct Hinv as [(_ & _ & Hi) | (Hr1 & Hr2 & _)]; [exact Hi |].
    destruct H; contradiction.
  - destruct Hinv as [([Hr | Hr] & _) | (_ & _ & Hc & _)]; [contradiction.. | exact Hc].
  - destruct Hinv as [([Hr | Hr] & _) | (_ & _ & _ & Hi)]; [contradiction.. | exact Hi].
  - intros r' Hstep Hn.
    destruct (step_inv cfg self llm r r' Hstep) as [[He _] | (_ & _ & Hshape)]; [congruence |].
    destruct Hshape; congruence.
  - intros r' Hstep Hn.
    destruct (step_inv cfg self llm r r' Hstep) as [[_ ->] | (_ & _ & Hshape)]; [reflexivity |].
    destruct Hshape as [_ _ Hf | Hg _ _ | _ _ _ Hf | _ _ Hf | _ _ Hf].
    + now apply retrieve_context_spec in Hf as (docs & _ & _ & _ & _ & _ & Hit).
    + contradiction.
    + now apply verify_answer_spec in Hf as (msg & _ & _ & _ & _ & _ & _ & Hit).
    + now apply correct_answer_spec in Hf as (_ & _ & _ & _ & Hit & _).
    + rewrite Hf. reflexivity.
Qed.

(** C5. [should_correct] returns "finalize" once the iteration budget is
    used up; below the budget it returns "correct" when the status is
    NEEDS_CORRECTION or the confidence is under the threshold, and
    "finalize" otherwise; and the node that follows [verify] is the one
    the mapping gives for its answer on the state [verify] produced. *)
Theorem should_correct_decision (state : RAGState) :
  (MAX_CORRECTION_ITERATIONS cfg <= iteration_count state ->
     should_correct cfg state = "finalize")
  /\ (iteration_count state < MAX_CORRECTION_ITERATIONS cfg ->
      verification_status state = "NEEDS_CORRECTION"
      \/ (confidence state < MIN_CONFIDENCE_THRESHOLD cfg)%Q ->
      should_correct cfg state = "correct")
  /\ (iteration_count state < MAX_CORRECTION_ITERATIONS cfg ->
      verification_status state <> "NEEDS_CORRECTION" ->
      ~ (confidence state < MIN_CONFIDENCE_THRESHOLD cfg)%Q ->
      should_correct cfg state = "finalize")
  /\ (forall r r', next r = verify -> step cfg self llm r = Ok r' ->
      conditional_edges (should_correct cfg (state_of r')) = Some (next r')).
Proof.
  split; [apply should_correct_budget |].
  split; [| split].
  - intros Hlt Hwhy. rewrite should_correct_within by exact Hlt.
    destruct Hwhy as [Hs | Hc].
    + apply String.eqb_eq in Hs. now rewrite Hs.
    + apply Qltb_lt in Hc. rewrite Hc. now rewrite orb_true_r.
  - intros Hlt Hs Hc. rewrite should_correct_within by exact Hlt.
    apply String.eqb_neq in Hs. rewrite Hs. simpl.
    destruct (Qltb (confidence state) (MIN_CONFIDENCE_THRESHOLD cfg)) eqn:E; [| reflexivity].
    apply Qltb_lt in E. contradiction.
  - intros r r' Hn Hstep.
    destruct (step_inv cfg self llm r r' Hstep) as [[He _] | (_ & _ & Hshape)]; [congruence |].
    destruct Hshape; congruence.
Qed.

Lemma frame_context_sources (r r' : run) :
  step cfg self llm r = Ok r' -> next r <> retrieve ->
  context (state_of r') = context (state_of r)
  /\ sources (state_of r') = sources (state_of r).
Proof.
  intros Hstep Hn.
  destruct (step_inv cfg self llm r r' Hstep) as [[_ ->] | (_ & _ & Hshape)]; [auto |].
  destruct Hshape as [Hr _ _ | _ _ Hf | _ _ _ Hf | _ _ Hf | _ _ Hf].
  - contradiction.
  - apply generate_answer_spec in Hf as (-> & -> & _). auto.
  - apply verify_answer_spec in Hf as (msg & _ & _ & -> & -> & _). auto.
  - apply correct_answer_spec in Hf as (_ & -> & -> & _). auto.
  - rewrite Hf. auto.
Qed.

(** C6. In every state of a run [context] and [sources] have the same
    length.  They are empty until [retrieve] has run; [retrieve] runs
    once, and from then on they are the texts and the sources of the
    documents found for the question; a step of [generate], [verify],
    [correct] or [finalize] leaves both as they were. *)
Theorem context_and_sources_set_once (q : string) (n : nat) (r : run) :
  steps cfg self llm n (start q) = Ok r ->
  length (context (state_of r)) = length (sources (state_of r))
  /\ (next r = retrieve ->
        times_executed retrieve r = 0%nat
        /\ context (state_of r) = [] /\ sources (state_of r) = [])
  /\ (next r <> retrieve ->
        times_executed retrieve r = 1%nat
        /\ exists docs,
             fst (search_documents cfg q None self) = Ok docs
             /\ context (state_of r) = map page_content docs
             /\ sources (state_of r) = map source_or_unknown docs)
  /\ (forall r', step cfg self llm r = Ok r' -> next r <> retrieve ->
        context (state_of r') = context (state_of r)
        /\ sources (state_of r') = sources (state_of r)).
Proof.
  intros Hrun.
  assert (Hinv : retrieved_once cfg self q r).
  { eapply (steps_invariant cfg self llm (retrieved_once cfg self q));
      [| apply retrieved_once_start | exact Hrun].
    apply retrieved_once_step. }
  destruct Hinv as [_ Hinv].
  split; [| split; [| split]].
  - destruct Hinv as [(_ & _ & -> & ->) | (_ & _ & docs & _ & -> & ->)]; [reflexivity |].
    now rewrite !length_map.
  - intros Hn. destruct Hinv as [(_ & Hc & Hctx & Hsrc) | (Hr & _)]; [auto | contradiction].
  - intros Hn. destruct Hinv as [(Hr & _) | (_ & Hc & Hdocs)]; [contradiction | auto].
  - intros r'. apply frame_context_sources.
Qed.

(** C7. A step of [verify] appends to [corrections_made] the verdict's
    issues, missing information and legal concerns, in this order (or
    the one parsing-error entry when the reply is not JSON); a step of
    [correct] appends the one marker; every other step leaves the list as
    it is; so the list at any point is a prefix of the list at every
    later point of the run. *)
Theorem corrections_made_append_only (r r' : run) :
  step cfg self llm r = Ok r' ->
  match next r with
  | verify =>
      exists msg,
        llm (llm_calls r)
            (verification_prompt (question (state_of r)) (answer (state_of r))
               (String.concat (nl ++ nl) (context (state_of r)))) = Ok msg
        /\ corrections_made (state_of r') =
           (corrections_made (state_of r) ++ issues_of (json_loads_content msg))%list
  | correct =>
      corrections_made (state_of r') =
      (corrections_made (state_of r) ++ ["Answer corrected based on verification"])%list
  | _ => corrections_made (state_of r') = corrections_made (state_of r)
  end
  /\ (forall m r'', steps cfg self llm m r' = Ok r'' ->
        corrections_made (state_of r) `prefix_of` corrections_made (state_of r'')).
Proof.
  intros Hstep. split.
  - destruct (step_inv cfg self llm r r' Hstep) as [[-> ->] | (_ & _ & Hshape)]; [reflexivity |].
    destruct Hshape as [-> _ Hf | -> _ Hf | -> _ _ Hf | -> _ Hf | -> _ Hf].
    + now apply retrieve_context_spec in Hf as (docs & _ & _ & _ & _ & -> & _).
    + now apply generate_answer_spec in Hf as (_ & _ & _ & -> & _).
    + apply verify_answer_spec in Hf as (msg & Hmsg & -> & _). eauto.
    + now apply correct_answer_spec in Hf as (-> & _).
    + now rewrite Hf.
  - intros m r'' Hrun.
    etransitivity; [apply (corrections_step cfg self llm _ _ Hstep) |].
    apply (corrections_steps cfg self llm _ _ _ Hrun).
Qed.

End Claims.

Section Budget.
Context `{L : Libraries}.
Variable cfg : Config.
Variable self : DocumentProcessor.
Variable llm : llm_oracle.

Lemma steps_snoc (n : nat) (r : run) :
  steps cfg self llm (S n) r = steps cfg self llm n r ≫= step cfg self llm.
Proof.
  revert r. induction n as [| n IH]; intros r.
  - simpl. destruct (step cfg self llm r); reflexivity.
  - change (steps cfg self llm (S (S n)) r)
      with (step cfg self llm r ≫= steps cfg self llm (S n)).
    change (steps cfg self llm (S n) r)
      with (step cfg self llm r ≫= steps cfg self llm n).
    destruct (step cfg self llm r) as [r1 | e]; [| reflexivity].
    simpl. apply IH.
Qed.

Lemma should_correct_when_asked (st : RAGState) :
  iteration_count st < MAX_CORRECTION_ITERATIONS cfg ->
  verification_status st = "NEEDS_CORRECTION"
  \/ (confidence st < MIN_CONFIDENCE_THRESHOLD cfg)%Q ->
  should_correct cfg st = "correct".
Proof.
  intros Hlt Hwhy. rewrite should_correct_within by exact Hlt.
  destruct Hwhy as [Hs | Hc].
  - apply String.eqb_eq in Hs. now rewrite Hs.
  - apply Qltb_lt in Hc. rewrite Hc. now rewrite orb_true_r.
Qed.

Lemma verify_when_asked invoke (st : RAGState) (msg : AIMessage) :
  invoke (verification_prompt (question st) (answer st)
            (String.concat (nl ++ nl) (context st))) = Ok msg ->
  asks_for_correction cfg (json_loads_content msg) ->
  iteration_count st < MAX_CORRECTION_ITERATIONS cfg ->
  exists st',
    verify_answer invoke st = Ok st'
    /\ question st' = question st
    /\ iteration_count st' = iteration_count st
    /\ should_correct cfg st' = "correct".
Proof.
  intros Hmsg Hask Hlt. unfold verify_answer. rewrite Hmsg. simpl.
  destruct (json_loads_content msg) as [| ty | d]; simpl in Hask.
  - eexists. split; [reflexivity |]. simpl. repeat split.
    apply should_correct_when_asked; simpl; auto.
  - contradiction.
  - destruct Hask as (status & conf & -> & -> & Hwhy).
    eexists. split; [reflexivity |]. simpl. repeat split.
    apply should_correct_when_asked; simpl; auto.
Qed.

Lemma looping_progress (q : string) (docs : list Document) (r : run) :
  1 < MAX_CORRECTION_ITERATIONS cfg ->
  never_satisfied cfg llm ->
  fst (search_documents cfg q None self) = Ok docs ->
  looping q r ->
  exists r', step cfg self llm r = Ok r' /\ looping q r'.
Proof.
  intros Hmax Hllm Hsearch [Hq Hat]. unfold step.
  destruct Hat as [[Hn Hit] | [[Hn Hit] | [[Hn | Hn] Hit]]]; rewrite Hn.
  - unfold retrieve_context. rewrite Hq, Hsearch. simpl.
    eexists. split; [reflexivity |]. split; [simpl; auto |]. right. left. simpl. auto.
  - unfold generate_answer.
    destruct (Hllm (llm_calls r)
                (answer_prompt (String.concat (nl ++ nl) (context (state_of r)))
                   (question (state_of r)))) as (msg & -> & _).
    simpl. eexists. split; [reflexivity |]. split; [simpl; auto |].
    right. right. simpl. split; [auto | lia].
  - destruct (Hllm (llm_calls r)
                (verification_prompt (question (state_of r)) (answer (state_of r))
                   (String.concat (nl ++ nl) (context (state_of r))))) as (msg & Hmsg & Hask).
    destruct (verify_when_asked (llm (llm_calls r)) (state_of r) msg Hmsg Hask)
      as (st' & -> & Hq' & Hit' & Hsc); [lia |].
    simpl. rewrite Hsc. simpl. eexists. split; [reflexivity |]. split; [simpl; congruence |].
    right. right. simpl. split; [auto | congruence].
  - unfold correct_answer.
    destruct (Hllm (llm_calls r)
                (correction_prompt (question (state_of r)) (answer (state_of r))
                   (String.concat (nl ++ nl) (context (state_of r)))
                   (String.concat nl (corrections_made (state_of r))))) as (msg & -> & _).
    simpl. eexists. split; [reflexivity |]. split; [simpl; auto |].
    right. right. simpl. split; [auto | exact Hit].
Qed.

(** With a budget of two or more and a verifier that is never satisfied,
    a run never raises and never leaves the cycle of [verify] and
    [correct]. *)
Lemma never_satisfied_loops (q : string) (docs : list Document) :
  1 < MAX_CORRECTION_ITERATIONS cfg ->
  never_satisfied cfg llm ->
  fst (search_documents cfg q None self) = Ok docs ->
  forall n, exists r, steps cfg self llm n (start q) = Ok r /\ looping q r.
Proof.
  intros Hmax Hllm Hsearch. induction n as [| n (r & Hrun & Hloop)].
  - exists (start q). split; [reflexivity |]. split; [reflexivity | left; simpl; auto].
  - destruct (looping_progress q docs r Hmax Hllm Hsearch Hloop) as (r' & Hstep & Hloop').
    exists r'. split; [| exact Hloop']. rewrite steps_snoc, Hrun. exact Hstep.
Qed.

End Budget.

Section Ingestion.
Context `{L : Libraries}.
Variable cfg : Config.

Lemma get_file_hash_of_file (fs : filesystem) (p : string) (data : list Byte.byte) :
  fs p = Some data -> get_file_hash fs p = Ok (md5_hexdigest []).
Proof. intros H. unfold get_file_hash. rewrite H. reflexivity. Qed.

Lemma get_file_hash_Ok (fs : filesystem) (p h : string) :
  get_file_hash fs p = Ok h -> h = md5_hexdigest [].
Proof.
  unfold get_file_hash. destruct (fs p); [| discriminate].
  simpl. intros H. injection H as <-. reflexivity.
Qed.

Lemma process_uploaded_file_spec (fs : filesystem) (p : string) (self : DocumentProcessor) :
  exists res self',
    process_uploaded_file cfg fs p self = (Ok res, self') /\ ingested fs p self res self'.
Proof.
  unfold process_uploaded_file, try_except, mbind, method_bind, bind, lift, read_self, ret.
  destruct (get_file_hash fs p) as [h | e] eqn:Hh;
    [| eexists _, _; split; [reflexivity | eapply ingest_failed; reflexivity]].
  destruct (processed_doc self !! h) as [chunks |] eqn:Hseen;
    [eexists _, _; split; [reflexivity | eapply ingest_seen; eauto] |].
  destruct (load_documents cfg fs p) as [documents | e];
    [| eexists _, _; split; [reflexivity | eapply ingest_failed; reflexivity]].
  destruct (process_documents documents) as [chunks | e];
    [| eexists _, _; split; [reflexivity | eapply ingest_failed; reflexivity]].
  unfold add_docs_to_vectorstore, create_vectorstore, set_vectorstore, set_processed_doc,
    mbind, method_bind, bind, lift, read_self, ret.
  destruct (vectorstore self) as [v |].
  - destruct (add_documents v chunks) as [v' | e];
      [| eexists _, _; split; [reflexivity | eapply ingest_failed; reflexivity]].
    eexists _, _; split; [reflexivity | eapply ingest_new; eauto].
  - destruct (from_documents chunks) as [v' | e];
      [| eexists _, _; split; [reflexivity | eapply ingest_failed; reflexivity]].
    eexists _, _; split; [reflexivity | eapply ingest_new; eauto].
Qed.

(** An entry of [processed_doc] is never removed or replaced. *)
Lemma process_uploaded_file_keeps (fs : filesystem) (p h : string)
    (chunks : list Document) (self : DocumentProcessor) :
  processed_doc self !! h = Some chunks ->
  processed_doc (snd (process_uploaded_file cfg fs p self)) !! h = Some chunks.
Proof.
  intros Hin.
  destruct (process_uploaded_file_spec fs p self) as (res & self' & -> & Hcase). simpl.
  destruct Hcase as [e _ -> | h' c' _ _ _ -> | h' c' _ Hnew _ ->]; try exact Hin.
  rewrite lookup_insert_ne; [exact Hin | congruence].
Qed.

Lemma ingest_all_keeps (jobs : list (filesystem * string)) (h : string)
    (chunks : list Document) (self : DocumentProcessor) :
  processed_doc self !! h = Some chunks ->
  processed_doc (ingest_all cfg jobs self) !! h = Some chunks.
Proof.
  revert self. induction jobs as [| [fs p] jobs IH]; intros self Hin; simpl; [exact Hin |].
  apply IH. now apply process_uploaded_file_keeps.
Qed.

(** A successful ingestion leaves the digest of the empty input among
    the keys of [processed_doc]. *)
Lemma success_records_empty_digest (fs : filesystem) (p : string)
    (self self' : DocumentProcessor) (res : file_result) :
  process_uploaded_file cfg fs p self = (Ok res, self') ->
  success res = true ->
  exists chunks, processed_doc self' !! md5_hexdigest [] = Some chunks.
Proof.
  intros Hrun Hok.
  destruct (process_uploaded_file_spec fs p self) as (res0 & self0 & Hrun0 & Hcase).
  rewrite Hrun in Hrun0. injection Hrun0 as <- <-.
  destruct Hcase as [e -> _ | h c Hh Hseen _ -> | h c Hh _ _ Hnew].
  - discriminate.
  - apply get_file_hash_Ok in Hh as ->. eauto.
  - apply get_file_hash_Ok in Hh as ->. exists c. rewrite Hnew. apply lookup_insert_eq.
Qed.

Lemma seen_file_is_skipped (fs : filesystem) (p : string) (data : list Byte.byte)
    (chunks : list Document) (self : DocumentProcessor) :
  fs p = Some data ->
  processed_doc self !! md5_hexdigest [] = Some chunks ->
  process_uploaded_file cfg fs p self =
    (Ok {| success := true; message := "File already processed";
           chunks_added := 0; total_chunks := len chunks |}, self).
Proof.
  intros Hfile Hseen.
  unfold process_uploaded_file, try_except, mbind, method_bind, bind, lift, read_self, ret.
  rewrite (get_file_hash_of_file fs p data Hfile), Hseen. reflexivity.
Qed.

(** C8. [get_system_stats] returns no record: in every state of the
    system, the empty index included, it raises AttributeError, because
    it calls [get_vectorstore_stats] on the document processor, whose
    method is named [get_vectorestore_stats]; the system is left as it
    was.  Under the name the class defines, the same call returns the
    statistics, three zeros when nothing is indexed. *)
Theorem get_system_stats_raises (self : DocumentProcessor) :
  get_system_stats cfg self =
    (Raise (Exn AttributeError
              "'DocumentProcessor' object has no attribute 'get_vectorstore_stats'"),
     self)
  /\ document_processor_call "get_vectorestore_stats" self = get_vectorestore_stats self
  /\ get_vectorestore_stats DocumentProcessor_init =
       (Ok {| total_documents := 0; stats_total_chunks := 0; processed_files := 0 |},
        DocumentProcessor_init).
Proof.
  repeat split.
Qed.

(** C9. The hash of every file is the md5 digest of the empty input, so
    two files hash alike whatever they hold; and once an ingestion has
    succeeded, every later ingestion of a file, after any ingestions in
    between, adds no chunk, reports "File already processed" and changes
    nothing. *)
Theorem get_file_hash_ignores_content
    (fs1 fs2 : filesystem) (p1 p2 : string) (data1 data2 : list Byte.byte) :
  fs1 p1 = Some data1 ->
  fs2 p2 = Some data2 ->
  get_file_hash fs1 p1 = Ok (md5_hexdigest [])
  /\ get_file_hash fs2 p2 = get_file_hash fs1 p1
  /\ (forall fs p self res self' jobs,
        process_uploaded_file cfg fs p self = (Ok res, self') ->
        success res = true ->
        exists total,
          process_uploaded_file cfg fs2 p2 (ingest_all cfg jobs self') =
            (Ok {| success := true; message := "File already processed";
                   chunks_added := 0; total_chunks := total |},
             ingest_all cfg jobs self')).
Proof.
  intros H1 H2. split; [| split].
  - exact (get_file_hash_of_file fs1 p1 data1 H1).
  - now rewrite (get_file_hash_of_file fs1 p1 data1 H1), (get_file_hash_of_file fs2 p2 data2 H2).
  - intros fs p self res self' jobs Hrun Hok.
    destruct (success_records_empty_digest fs p self self' res Hrun Hok) as (chunks & Hseen).
    exists (len chunks).
    apply (seen_file_is_skipped fs2 p2 data2); [exact H2 |].
    now apply ingest_all_keeps.
Qed.

(** C10, amended. When the ingestion of a file has succeeded, ingesting
    a file of the same content next succeeds again, adds no chunk and
    changes nothing. *)
Theorem second_ingestion_adds_nothing
    (fs1 fs2 : filesystem) (p1 p2 : string) (data : list Byte.byte)
    (self self1 : DocumentProcessor) (res1 : file_result) :
  fs1 p1 = Some data ->
  fs2 p2 = Some data ->
  process_uploaded_file cfg fs1 p1 self = (Ok res1, self1) ->
  success res1 = true ->
  exists res2,
    process_uploaded_file cfg fs2 p2 self1 = (Ok res2, self1)
    /\ success res2 = true /\ chunks_added res2 = 0.
Proof.
  intros H1 H2 Hrun Hok.
  destruct (success_records_empty_digest fs1 p1 self self1 res1 Hrun Hok) as (chunks & Hseen).
  eexists. split; [apply (seen_file_is_skipped fs2 p2 data chunks self1 H2 Hseen) |].
  split; reflexivity.
Qed.

End Ingestion.

(** * Further properties of the graph and of ingestion *)

Section Further.
Context `{L : Libraries}.
Variable cfg : Config.
Variable self : DocumentProcessor.
Variable llm : llm_oracle.

#[local] Arguments search_documents : simpl never.
#[local] Arguments String.concat : simpl never.
#[local] Arguments String.append : simpl never.

Lemma should_correct_when_satisfied (st : RAGState) :
  verification_status st <> "NEEDS_CORRECTION" ->
  ~ (confidence st < MIN_CONFIDENCE_THRESHOLD cfg)%Q ->
  should_correct cfg st = "finalize".
Proof.
  intros Hs Hc. unfold should_correct.
  destruct (MAX_CORRECTION_ITERATIONS cfg <=? iteration_count st); [reflexivity |].
  apply String.eqb_neq in Hs. rewrite Hs. simpl.
  destruct (Qltb (confidence st) (MIN_CONFIDENCE_THRESHOLD cfg)) eqn:E; [| reflexivity].
  apply Qltb_lt in E. contradiction.
Qed.

Lemma steps_cons (n : nat) (r r' : run) :
  step cfg self llm r = Ok r' ->
  steps cfg self llm (S n) r = steps cfg self llm n r'.
Proof. intros H. simpl. rewrite H. reflexivity. Qed.

Lemma step_retrieve (r : run) (docs : list Document) :
  next r = retrieve ->
  fst (search_documents cfg (question (state_of r)) None self) = Ok docs ->
  exists st,
    step cfg self llm r = Ok (after r generate st (llm_calls r))
    /\ question st = question (state_of r)
    /\ context st = map page_content docs
    /\ corrections_made st = corrections_made (state_of r)
    /\ iteration_count st = iteration_count (state_of r).
Proof.
  intros Hn Hsearch. unfold step. rewrite Hn. unfold retrieve_context. rewrite Hsearch.
  eexists. split; [reflexivity |]. simpl. auto.
Qed.

Lemma step_generate (r : run) (gen : AIMessage) :
  next r = generate ->
  llm (llm_calls r)
      (answer_prompt (String.concat (nl ++ nl) (context (state_of r)))
         (question (state_of r))) = Ok gen ->
  exists st,
    step cfg self llm r = Ok (after r verify st (S (llm_calls r)))
    /\ question st = question (state_of r)
    /\ context st = context (state_of r)
    /\ answer st = content gen
    /\ corrections_made st = corrections_made (state_of r)
    /\ iteration_count st = iteration_count (state_of r) + 1.
Proof.
  intros Hn Hgen. unfold step. rewrite Hn. unfold generate_answer. rewrite Hgen.
  eexists. split; [reflexivity |]. simpl. auto.
Qed.

Lemma verify_then_finalize invoke (st : RAGState) (msg : AIMessage) :
  invoke (verification_prompt (question st) (answer st)
            (String.concat (nl ++ nl) (context st))) = Ok msg ->
  decodes (json_loads_content msg) ->
  MAX_CORRECTION_ITERATIONS cfg <= iteration_count st
  \/ accepts cfg (json_loads_content msg) ->
  exists st',
    verify_answer invoke st = Ok st'
    /\ should_correct cfg st' = "finalize"
    /\ iteration_count st' = iteration_count st
    /\ corrections_made st' = (corrections_made st ++ issues_of (json_loads_content msg))%list
    /\ answer st' = answer st.
Proof.
  intros Hmsg Hdec Hwhy. unfold verify_answer. rewrite Hmsg. simpl.
  destruct (json_loads_content msg) as [| ty | d]; simpl in Hdec.
  - destruct Hwhy as [Hmax | []].
    eexists. split; [reflexivity |]. split; [| simpl; auto].
    apply should_correct_budget. exact Hmax.
  - contradiction.
  - destruct Hdec as [[status Hs] [conf Hc]]. rewrite Hs, Hc.
    eexists. split; [reflexivity |]. split; [| simpl; rewrite <- !app_assoc; auto].
    destruct Hwhy as [Hmax | (status' & conf' & Hs' & Hc' & Hne & Hge)].
    + apply should_correct_budget. exact Hmax.
    + apply should_correct_when_satisfied; simpl; congruence.
Qed.

(** A run whose first verdict leads to [finalize] ends after four
    steps, having executed each node but [correct] once; [gen] is the
    reply to the one generation and [msg] the reply to the one
    verification. *)
Lemma finalizes_after_first_verdict (q : string) (docs : list Document) :
  fst (search_documents cfg q None self) = Ok docs ->
  verifier_replies decodes llm ->
  MAX_CORRECTION_ITERATIONS cfg <= 1 \/ verifier_replies (accepts cfg) llm ->
  exists r gen msg,
    llm 0%nat (answer_prompt (String.concat (nl ++ nl) (map page_content docs)) q) = Ok gen
    /\ llm 1%nat (verification_prompt q (content gen)
                    (String.concat (nl ++ nl) (map page_content docs))) = Ok msg
    /\ steps cfg self llm 4 (start q) = Ok r
    /\ next r = END
    /\ executed r = [finalize; verify; generate; retrieve]
    /\ llm_calls r = 2%nat
    /\ iteration_count (state_of r) = 1
    /\ corrections_made (state_of r) = issues_of (json_loads_content msg)
    /\ answer (state_of r) = content gen.
Proof.
  intros Hsearch Hdec Hwhy.
  destruct (step_retrieve (start q) docs eq_refl Hsearch) as (st1 & H1 & Hq1 & Hc1 & Hl1 & Hi1).
  set (r1 := after (start q) generate st1 0) in *.
  destruct (Hdec (llm_calls r1)
              (answer_prompt (String.concat (nl ++ nl) (context (state_of r1)))
                 (question (state_of r1)))) as (gen & Hgen & _).
  destruct (step_generate r1 gen eq_refl Hgen) as (st2 & H2 & Hq2 & Hc2 & Ha2 & Hl2 & Hi2).
  set (r2 := after r1 verify st2 1) in *.
  destruct (Hdec (llm_calls r2)
              (verification_prompt (question st2) (answer st2)
                 (String.concat (nl ++ nl) (context st2)))) as (msg & Hmsg & Hd).
  destruct (verify_then_finalize (llm (llm_calls r2)) st2 msg Hmsg Hd)
    as (st3 & Hv & Hsc & Hi3 & Hl3 & Ha3).
  { destruct Hwhy as [Hmax | Hacc].
    - left. simpl in Hi2, Hi1. lia.
    - right.
      destruct (Hacc (llm_calls r2)
                  (verification_prompt (question st2) (answer st2)
                     (String.concat (nl ++ nl) (context st2)))) as (msg' & Hmsg' & Ha).
      rewrite Hmsg in Hmsg'. injection Hmsg' as <-. exact Ha. }
  assert (H3 : step cfg self llm r2 = Ok (after r2 finalize st3 2)).
  { unfold step. change (next r2) with verify. change (state_of r2) with st2.
    rewrite Hv. simpl. rewrite Hsc. reflexivity. }
  change (state_of r1) with st1 in Hgen, Hq2, Hc2. change (llm_calls r1) with 0%nat in Hgen.
  change (llm_calls r2) with 1%nat in Hmsg.
  change (question (state_of (start q))) with q in Hq1.
  rewrite Hc1, Hq1 in Hgen. rewrite Hq2, Hq1, Ha2, Hc2, Hc1 in Hmsg.
  exists (after (after r2 finalize st3 2) END (finalize_response st3) 2), gen, msg.
  split; [exact Hgen |]. split; [exact Hmsg |]. split.
  - etransitivity; [exact (steps_cons 3 _ _ H1) |].
    etransitivity; [exact (steps_cons 2 _ _ H2) |].
    etransitivity; [exact (steps_cons 1 _ _ H3) |]. reflexivity.
  - simpl. repeat split; auto.
    + simpl in Hi2, Hi1. lia.
    + rewrite Hl3, Hl2. simpl. rewrite Hl1. reflexivity.
    + congruence.
Qed.

(** X1. When the verifier's reply is not JSON, [verify_answer] does not
    raise: it sets the status to NEEDS_CORRECTION and the confidence to
    0.5, appends the one parsing-error entry, and keeps the rest. *)
Theorem verify_answer_degrades_on_non_json invoke (st : RAGState) (msg : AIMessage) :
  invoke (verification_prompt (question st) (answer st)
            (String.concat (nl ++ nl) (context st))) = Ok msg ->
  json_loads_content msg = JSONDecodeError ->
  verify_answer invoke st =
    Ok {| question := question st;
          context := context st;
          answer := answer st;
          confidence := 1 # 2;
          sources := sources st;
          corrections_made := (corrections_made st ++ ["Verification parsing error"])%list;
          verification_status := "NEEDS_CORRECTION";
          iteration_count := iteration_count st;
          metadata := metadata st |}.
Proof.
  intros Hmsg Hjson. unfold verify_answer. rewrite Hmsg. simpl. rewrite Hjson. reflexivity.
Qed.

(** X2. When the model answers every call and every verdict is an
    object of the types the prompt asks for whose status is not
    NEEDS_CORRECTION and whose confidence reaches the threshold, a query
    ends after four steps: one retrieval, one generation, one
    verification and [finalize], with two calls to the model and no
    correction.  The answer is the reply [gen] of the model to the
    answer prompt, and [corrections_made] holds the issues of the
    verdict [msg], the reply of the model to the verification prompt
    for that answer. *)
Theorem satisfied_verifier_finalizes_at_once (q : string) (docs : list Document) :
  fst (search_documents cfg q None self) = Ok docs ->
  verifier_replies (accepts cfg) llm ->
  exists r gen msg,
    llm 0%nat (answer_prompt (String.concat (nl ++ nl) (map page_content docs)) q) = Ok gen
    /\ llm 1%nat (verification_prompt q (content gen)
                    (String.concat (nl ++ nl) (map page_content docs))) = Ok msg
    /\ steps cfg self llm 4 (start q) = Ok r
    /\ next r = END
    /\ executed r = [finalize; verify; generate; retrieve]
    /\ llm_calls r = 2%nat
    /\ iteration_count (state_of r) = 1
    /\ answer (state_of r) = content gen
    /\ corrections_made (state_of r) = issues_of (json_loads_content msg).
Proof.
  intros Hsearch Hacc.
  destruct (finalizes_after_first_verdict q docs Hsearch) as (r & gen & msg & H);
    [| now right |].
  - intros n p. destruct (Hacc n p) as (msg & Hmsg & Hp). exists msg. split; [exact Hmsg |].
    destruct p; auto.
    destruct (json_loads_content msg) as [| ty | d]; simpl in *; try contradiction.
    destruct Hp as (status & conf & -> & -> & _). split; eauto.
  - exists r, gen, msg. tauto.
Qed.

(** X3. With a budget of one iteration, a query ends after four steps
    whatever the verdicts say, provided the model answers every call and
    every reply of the verifier is text that is not JSON or an object of
    the types the prompt asks for: a status, a confidence, and each list
    of issues absent or a list of strings. *)
Theorem budget_of_one_finalizes (q : string) (docs : list Document) :
  MAX_CORRECTION_ITERATIONS cfg <= 1 ->
  fst (search_documents cfg q None self) = Ok docs ->
  verifier_replies decodes llm ->
  exists r,
    steps cfg self llm 4 (start q) = Ok r
    /\ next r = END
    /\ executed r = [finalize; verify; generate; retrieve]
    /\ iteration_count (state_of r) = 1.
Proof.
  intros Hmax Hsearch Hdec.
  destruct (finalizes_after_first_verdict q docs Hsearch Hdec) as (r & gen & msg & H);
    [now left |].
  exists r. tauto.
Qed.

(** X4. [iteration_count] is 0 or 1 along every run, so under a valid
    configuration it never exceeds the maximum, and no step lowers it. *)
Theorem iteration_count_bounded (q : string) (n : nat) (r : run) :
  valid_config cfg ->
  steps cfg self llm n (start q) = Ok r ->
  0 <= iteration_count (state_of r) <= 1
  /\ iteration_count (state_of r) <= MAX_CORRECTION_ITERATIONS cfg
  /\ forall r', step cfg self llm r = Ok r' ->
       iteration_count (state_of r) <= iteration_count (state_of r').
Proof.
  intros (_ & _ & Hmax) Hrun.
  assert (Hinv : generated_once r).
  { eapply (steps_invariant cfg self llm generated_once); [| apply generated_once_start | exact Hrun].
    apply generated_once_step. }
  assert (Hb : 0 <= iteration_count (state_of r) <= 1).
  { destruct Hinv as [(_ & _ & ->) | (_ & _ & _ & ->)]; lia. }
  split; [exact Hb |]. split; [lia |].
  intros r' Hstep.
  destruct (step_inv cfg self llm r r' Hstep) as [[_ ->] | (_ & _ & Hshape)]; [lia |].
  destruct Hshape as [_ _ Hf | _ _ Hf | _ _ _ Hf | _ _ Hf | _ _ Hf].
  - apply retrieve_context_spec in Hf as (d & _ & _ & _ & _ & _ & ->). lia.
  - apply generate_answer_spec in Hf as (_ & _ & _ & _ & ->). lia.
  - apply verify_answer_spec in Hf as (msg & _ & _ & _ & _ & _ & _ & ->). lia.
  - apply correct_answer_spec in Hf as (_ & _ & _ & _ & -> & _). lia.
  - rewrite Hf. simpl. lia.
Qed.

(** X5. A step of [generate] or of [correct] leaves [confidence] and
    [verification_status] as the last verification set them. *)
Theorem generator_and_corrector_keep_the_verdict (r r' : run) :
  next r = generate \/ next r = correct ->
  step cfg self llm r = Ok r' ->
  confidence (state_of r') = confidence (state_of r)
  /\ verification_status (state_of r') = verification_status (state_of r).
Proof.
  intros Hn Hstep. unfold step in Hstep.
  destruct Hn as [Hn | Hn]; rewrite Hn in Hstep;
    apply rbind_Ok in Hstep as (st & Hst & Hstep); injection Hstep as <-; simpl.
  - unfold generate_answer in Hst. apply rbind_Ok in Hst as (msg & _ & Hst).
    injection Hst as <-. auto.
  - unfold correct_answer in Hst. apply rbind_Ok in Hst as (msg & _ & Hst).
    injection Hst as <-. auto.
Qed.

(** X6. With no document indexed a query raises the ValueError of
    [search_documents] at its first step. *)
Theorem query_without_index_raises (q : string) (fuel : nat) :
  query cfg DocumentProcessor_init llm q (S fuel) =
    Raise (Exn ValueError "No documents loaded. Please upload documents first").
Proof. reflexivity. Qed.

(** X7. [finalize_response] records the iteration count and the length of
    [corrections_made] in the metadata and changes nothing else. *)
Theorem finalize_response_totals (st : RAGState) :
  metadata (finalize_response st) !! "final_iteration_count" = Some (VInt (iteration_count st))
  /\ metadata (finalize_response st) !! "total_corrections"
     = Some (VInt (len (corrections_made st)))
  /\ answer (finalize_response st) = answer st
  /\ confidence (finalize_response st) = confidence st
  /\ verification_status (finalize_response st) = verification_status st
  /\ corrections_made (finalize_response st) = corrections_made st
  /\ iteration_count (finalize_response st) = iteration_count st.
Proof.
  unfold finalize_response. simpl. repeat split.
  - rewrite lookup_insert_ne by discriminate. apply lookup_insert_eq.
  - apply lookup_insert_eq.
Qed.

Lemma ingest_loop_spec (fs : filesystem) (file_paths : list string)
    (done : list file_result) (total : Z) (dp : DocumentProcessor) :
  exists new,
    ingest_loop cfg fs file_paths done total dp =
      (Ok ((done ++ new)%list, total + chunks_of_successes new),
       ingest_all cfg (map (pair fs) file_paths) dp)
    /\ length new = length file_paths.
Proof.
  revert done total dp. induction file_paths as [| p rest IH]; intros done total dp.
  - exists []. simpl. unfold ret. rewrite app_nil_r, Z.add_0_r. auto.
  - destruct (process_uploaded_file_spec cfg fs p dp) as (res & dp1 & Hrun & _).
    destruct (IH (done ++ [res])%list
                (if success res then total + chunks_added res else total) dp1)
      as (new & Hloop & Hlen).
    exists (res :: new). split; [| simpl; now rewrite Hlen].
    simpl. unfold mbind, method_bind, bind. rewrite Hrun, Hloop. simpl.
    rewrite <- app_assoc. simpl. f_equal. f_equal. f_equal.
    destruct (success res); lia.
Qed.

(** X8. [process_documents] of the system never returns its results: it
    runs [process_uploaded_file] on every path, in order, and then
    raises AttributeError when it builds the dictionary to return, for
    it looks up [get_vectorstore_stats] on the document processor, whose
    method is named [get_vectorestore_stats].  The processor is left as
    the ingestions left it. *)
Theorem process_documents_raises_after_ingesting (fs : filesystem)
    (file_paths : list string) (dp : DocumentProcessor) :
  LegalRAGSystem_process_documents cfg fs file_paths dp =
    (Raise (Exn AttributeError
              "'DocumentProcessor' object has no attribute 'get_vectorstore_stats'"),
     ingest_all cfg (map (pair fs) file_paths) dp).
Proof.
  destruct (ingest_loop_spec fs file_paths [] 0 dp) as (new & Hloop & _).
  unfold LegalRAGSystem_process_documents, mbind, method_bind, bind. rewrite Hloop.
  reflexivity.
Qed.

(** X9. [process_uploaded_file] never raises: it returns a result, and a
    result that reports a failure adds no chunk and leaves the index and
    the record of processed files untouched. *)
Theorem process_uploaded_file_never_raises (fs : filesystem) (p : string)
    (dp : DocumentProcessor) :
  exists res dp',
    process_uploaded_file cfg fs p dp = (Ok res, dp')
    /\ (success res = true \/ (chunks_added res = 0 /\ dp' = dp)).
Proof.
  destruct (process_uploaded_file_spec cfg fs p dp) as (res & dp' & Hrun & Hcase).
  exists res, dp'. split; [exact Hrun |].
  destruct Hcase as [e -> -> | h c _ _ -> _ | h c _ _ -> _]; simpl; auto.
Qed.

End Further.

(** * Loading and indexing *)

Section Loading.
Context `{L : Libraries}.
Variable cfg : Config.

Lemma map_result_Forall2 {A B} (f : A -> result B) (l : list A) (l' : list B) :
  map_result f l = Ok l' -> Forall2 (fun x y => f x = Ok y) l l'.
Proof.
  revert l'. induction l as [| x l IH]; intros l' H; simpl in H.
  - injection H as <-. constructor.
  - apply rbind_Ok in H as (y & Hy & H). apply rbind_Ok in H as (ys & Hys & H).
    injection H as <-. constructor; auto.
Qed.

Lemma too_large_iff (f : list Byte.byte) :
  Qltb (inject_Z (MAX_FILE_SIZE_MB cfg)) (file_size_mb f) = true
  <-> MAX_FILE_SIZE_MB cfg * 1048576 < len f.
Proof.
  rewrite Qltb_lt. unfold file_size_mb, Qlt, Qdiv, Qmult, Qinv, inject_Z. simpl. lia.
Qed.

Lemma choose_loader_supported (ext : string) :
  (exists ld, choose_loader ext = Ok ld) <-> ext ∈ LEGAL_DOCUMENTS_TYPES.
Proof.
  unfold choose_loader, LEGAL_DOCUMENTS_TYPES.
  rewrite !elem_of_cons, elem_of_nil.
  destruct (String.eqb_spec ext ".pdf") as [-> | H1]; [split; eauto |].
  destruct (String.eqb_spec ext ".docx") as [-> | H2]; [split; eauto |].
  destruct (String.eqb_spec ext ".txt") as [-> | H3]; [split; eauto |].
  split; [intros [ld H]; discriminate | tauto].
Qed.

Lemma load_documents_stamps_metadata_loader (fs : filesystem) (p : string)
    (docs : list Document) :
  load_documents cfg fs p = Ok (Some docs) ->
  exists ld, choose_loader (str_lower (path_suffix p)) = Ok ld.
Proof.
  unfold load_documents. intros H.
  destruct (fs p) as [f |]; [| discriminate].
  destruct (Qltb _ _); [discriminate |].
  destruct (choose_loader (str_lower (path_suffix p))) as [ld | e]; [eauto | discriminate].
Qed.

(** X10. The documents [load_documents] returns are the pages of the
    loader chosen by the lower-cased suffix, each with its text kept and
    its metadata stamped with the file's name, type and size and with
    the digest of the empty input as its hash. *)
Theorem load_documents_stamps_metadata (fs : filesystem) (p : string)
    (docs : list Document) :
  load_documents cfg fs p = Ok (Some docs) ->
  exists f ld pages,
    fs p = Some f
    /\ choose_loader (str_lower (path_suffix p)) = Ok ld
    /\ loader_load ld p f = Ok pages
    /\ map page_content docs = map page_content pages
    /\ Forall (fun d =>
                 md_source d = Some (path_name p)
                 /\ md_file_type d = Some (str_lower (path_suffix p))
                 /\ md_file_size_mn d = Some (round2 (file_size_mb f))
                 /\ md_file_hash d = Some (md5_hexdigest [])) docs.
Proof.
  unfold load_documents. intros H.
  destruct (fs p) as [f |] eqn:Hf; [| discriminate].
  destruct (Qltb _ _); [discriminate |].
  destruct (choose_loader (str_lower (path_suffix p))) as [ld | e] eqn:Hld; [| discriminate].
  simpl in H.
  destruct (loader_load ld p f) as [pages | e] eqn:Hpages; [| discriminate].
  simpl in H.
  destruct (map_result _ pages) as [stamped | e] eqn:Hmap; [| discriminate].
  injection H as <-.
  exists f, ld, pages. repeat split; auto; clear Hpages.
  - apply map_result_Forall2 in Hmap.
    induction Hmap as [| page d pages' ds Hd _ IH]; [reflexivity |].
    simpl. rewrite IH. f_equal.
    unfold update_metadata in Hd. rewrite (get_file_hash_of_file fs p f Hf) in Hd.
    injection Hd as <-. reflexivity.
  - apply map_result_Forall2 in Hmap.
    induction Hmap as [| page d pages' ds Hd _ IH]; constructor; [| exact IH].
    unfold update_metadata in Hd. rewrite (get_file_hash_of_file fs p f Hf) in Hd.
    injection Hd as <-. simpl. auto.
Qed.

Lemma load_documents_unsupported (fs : filesystem) (p : string) (f : list Byte.byte) :
  fs p = Some f ->
  len f <= MAX_FILE_SIZE_MB cfg * 1048576 ->
  str_lower (path_suffix p) ∉ LEGAL_DOCUMENTS_TYPES ->
  load_documents cfg fs p = Ok None.
Proof.
  intros Hf Hfit Hno. unfold load_documents. rewrite Hf.
  destruct (Qltb _ _) eqn:E; [apply too_large_iff in E; lia |].
  destruct (choose_loader (str_lower (path_suffix p))) as [ld | e] eqn:Hld; [| reflexivity].
  exfalso. apply Hno. apply choose_loader_supported. eauto.
Qed.


(** X12. On a file that exists, is within the size limit, has a suffix
    that is not supported and a hash not seen before,
    [process_uploaded_file] reports a failure whose message is that of
    the TypeError raised on [None], not that of the unsupported type, and
    changes nothing. *)
Theorem unsupported_type_reported_as_type_error (fs : filesystem) (p : string)
    (f : list Byte.byte) (self : DocumentProcessor) :
  fs p = Some f ->
  len f <= MAX_FILE_SIZE_MB cfg * 1048576 ->
  str_lower (path_suffix p) ∉ LEGAL_DOCUMENTS_TYPES ->
  processed_doc self !! md5_hexdigest [] = None ->
  process_uploaded_file cfg fs p self =
    (Ok {| success := false;
           message := "Error processing file: 'NoneType' object is not iterable";
           chunks_added := 0; total_chunks := 0 |}, self).
Proof.
  intros Hf Hfit Hno Hnew.
  pose proof (load_documents_unsupported fs p f Hf Hfit Hno) as Hload.
  unfold process_uploaded_file, try_except, mbind, method_bind, bind, lift, read_self, ret.
  rewrite (get_file_hash_of_file fs p f Hf), Hnew, Hload. reflexivity.
Qed.

End Loading.

Section Indexing.
Context `{L : Libraries}.
Variable cfg : Config.

(** An ingestion leaves the processor as it was, or indexes the chunks
    of a file under the digest of the empty input, not seen before. *)
Lemma process_uploaded_file_index (fs : filesystem) (p : string) (self : DocumentProcessor) :
  snd (process_uploaded_file cfg fs p self) = self
  \/ (exists v chunks,
        processed_doc self !! md5_hexdigest [] = None
        /\ snd (process_uploaded_file cfg fs p self) =
           {| vectorstore := Some v;
              processed_doc := <[md5_hexdigest [] := chunks]> (processed_doc self) |}).
Proof.
  unfold process_uploaded_file, try_except, mbind, method_bind, bind, lift, read_self, ret.
  destruct (get_file_hash fs p) as [h | e] eqn:Hh; [| now left].
  apply get_file_hash_Ok in Hh as ->.
  destruct (processed_doc self !! md5_hexdigest []) as [chunks |] eqn:Hseen; [now left |].
  destruct (load_documents cfg fs p) as [documents | e]; [| now left].
  destruct (process_documents documents) as [chunks | e]; [| now left].
  unfold add_docs_to_vectorstore, create_vectorstore, set_vectorstore, set_processed_doc,
    mbind, method_bind, bind, lift, read_self, ret.
  destruct (vectorstore self) as [v |].
  - destruct (add_documents v chunks) as [v' | e]; [| now left]. right. simpl. eauto.
  - destruct (from_documents chunks) as [v' | e]; [| now left]. right. simpl. eauto.
Qed.

Lemma at_most_one_file_kept (fs : filesystem) (p : string) (self : DocumentProcessor) :
  at_most_one_file self ->
  at_most_one_file (snd (process_uploaded_file cfg fs p self)).
Proof.
  intros Hinv.
  destruct (process_uploaded_file_index fs p self) as [-> | (v & chunks & Hnew & ->)];
    [exact Hinv |].
  right. exists v, chunks. split; [reflexivity |]. simpl.
  destruct Hinv as [[_ ->] | (v0 & c0 & _ & Hone)].
  - apply insert_empty.
  - rewrite Hone, lookup_singleton_eq in Hnew. discriminate.
Qed.

Lemma seen_processor_is_fixed (fs : filesystem) (p : string) (chunks : list Document)
    (self : DocumentProcessor) :
  processed_doc self !! md5_hexdigest [] = Some chunks ->
  snd (process_uploaded_file cfg fs p self) = self.
Proof.
  intros Hseen.
  destruct (process_uploaded_file_index fs p self) as [-> | (v & c & Hnew & _)];
    [reflexivity | congruence].
Qed.

(** X13. Whatever files are ingested into a new processor, in whatever
    order, it holds either nothing or one index with one entry of
    [processed_doc], under the digest of the empty input; so the
    statistics never report more than one document. *)
Theorem index_holds_at_most_one_file (jobs : list (filesystem * string)) :
  at_most_one_file (ingest_all cfg jobs DocumentProcessor_init)
  /\ (size (processed_doc (ingest_all cfg jobs DocumentProcessor_init)) <= 1)%nat
  /\ exists stats,
       fst (get_vectorestore_stats (ingest_all cfg jobs DocumentProcessor_init)) = Ok stats
       /\ total_documents stats = processed_files stats
       /\ 0 <= total_documents stats <= 1.
Proof.
  assert (Hinv : at_most_one_file (ingest_all cfg jobs DocumentProcessor_init)).
  { assert (H0 : at_most_one_file DocumentProcessor_init) by (left; auto).
    revert H0. generalize DocumentProcessor_init.
    induction jobs as [| [fs p] jobs IH]; intros self Hself; simpl; [exact Hself |].
    apply IH. now apply at_most_one_file_kept. }
  split; [exact Hinv |].
  set (self := ingest_all cfg jobs DocumentProcessor_init) in *.
  assert (Hsize : (size (processed_doc self) <= 1)%nat).
  { destruct Hinv as [[_ ->] | (v & chunks & _ & ->)].
    - rewrite map_size_empty. lia.
    - rewrite map_size_singleton. lia. }
  split; [exact Hsize |].
  unfold get_vectorestore_stats, mbind, method_bind, bind, read_self, ret.
  destruct (vectorstore self); eexists; (split; [reflexivity |]); simpl; lia.
Qed.

(** X14. Once an ingestion has succeeded, no later ingestion changes the
    processor: the index and the record of processed files stay those of
    the first file. *)
Theorem index_frozen_after_first_success (fs : filesystem) (p : string)
    (self self' : DocumentProcessor) (res : file_result) (jobs : list (filesystem * string)) :
  process_uploaded_file cfg fs p self = (Ok res, self') ->
  success res = true ->
  ingest_all cfg jobs self' = self'.
Proof.
  intros Hrun Hok.
  destruct (success_records_empty_digest cfg fs p self self' res Hrun Hok) as (chunks & Hseen).
  induction jobs as [| [fs2 p2] jobs IH]; simpl; [reflexivity |].
  rewrite (seen_processor_is_fixed fs2 p2 chunks self' Hseen). exact IH.
Qed.

End Indexing.

(** * Counting the nodes of a run, and what a response reports *)

Section Counting.
Context `{L : Libraries}.
Variable cfg : Config.
Variable self : DocumentProcessor.
Variable llm : llm_oracle.

Lemma step_llm_calls (r r' : run) :
  step cfg self llm r = Ok r' ->
  llm_calls r' =
    match next r with
    | generate | verify | correct => S (llm_calls r)
    | _ => llm_calls r
    end.
Proof.
  unfold step. intros H.
  destruct (next r); try (apply rbind_Ok in H as (st & _ & H)).
  - now injection H as <-.
  - now injection H as <-.
  - destruct (should_correct_routes cfg st) as [Hr | Hr]; rewrite Hr in H; now injection H as <-.
  - now injection H as <-.
  - now injection H as <-.
  - now injection H as <-.
Qed.

Lemma times_executed_nil (nd : node) (r : run) :
  executed r = [] -> times_executed nd r = 0%nat.
Proof. unfold times_executed. now intros ->. Qed.

Lemma counted_start (q : string) : counted (start q).
Proof. split; reflexivity. Qed.

Lemma counted_step (r r' : run) :
  counted r -> step cfg self llm r = Ok r' -> counted r'.
Proof.
  intros [Hcalls Hinv] Hstep.
  pose proof (step_llm_calls r r' Hstep) as Hc.
  destruct (step_inv cfg self llm r r' Hstep) as [[_ ->] | (_ & Hex & Hshape)];
    [split; assumption |].
  pose proof (times_executed_step retrieve r r' Hex) as Hr.
  pose proof (times_executed_step generate r r' Hex) as Hg.
  pose proof (times_executed_step verify r r' Hex) as Hv.
  pose proof (times_executed_step correct r r' Hex) as Hk.
  pose proof (times_executed_step finalize r r' Hex) as Hf.
  unfold counted.
  destruct Hshape as [Hn Hn' _ | Hn Hn' _ | Hn Hn' _ _ | Hn Hn' _ | Hn Hn' _];
    rewrite Hn in *; simpl in Hr, Hg, Hv, Hk, Hf.
  - rewrite !(times_executed_nil _ r Hinv) in *. rewrite Hn'. lia.
  - rewrite Hn'. lia.
  - destruct Hn' as [-> | ->]; lia.
  - rewrite Hn'. lia.
  - rewrite Hn'. lia.
Qed.

(** X15. Along every run a verification follows the generation and
    every correction: [verify] has run as often as [correct] or once
    more, the model was called once per execution of [generate], [verify]
    and [correct], and a run that has reached [END] has retrieved,
    generated and finalized once and verified once more than it
    corrected. *)
Theorem verification_follows_every_correction (q : string) (n : nat) (r : run) :
  steps cfg self llm n (start q) = Ok r ->
  (times_executed correct r <= times_executed verify r <= S (times_executed correct r))%nat
  /\ (times_executed generate r <= 1)%nat
  /\ llm_calls r
     = (times_executed generate r + times_executed verify r + times_executed correct r)%nat
  /\ (next r = END ->
        times_executed retrieve r = 1%nat /\ times_executed generate r = 1%nat
        /\ times_executed verify r = S (times_executed correct r)
        /\ times_executed finalize r = 1%nat).
Proof.
  intros Hrun.
  assert (Hinv : counted r).
  { eapply (steps_invariant cfg self llm counted); [| apply counted_start | exact Hrun].
    apply counted_step. }
  destruct Hinv as [Hcalls Hinv].
  destruct (next r) eqn:Hn;
    try rewrite !(times_executed_nil _ r Hinv) in *;
    (split; [lia |]); (split; [lia |]); (split; [lia |]); intros He;
    try discriminate; tauto.
Qed.

Lemma corrections_count_step (r r' : run) :
  (times_executed correct r <= length (corrections_made (state_of r)))%nat ->
  step cfg self llm r = Ok r' ->
  (times_executed correct r' <= length (corrections_made (state_of r')))%nat.
Proof.
  intros Hinv Hstep.
  destruct (step_inv cfg self llm r r' Hstep) as [[_ ->] | (_ & Hex & Hshape)]; [exact Hinv |].
  pose proof (times_executed_step correct r r' Hex) as Hk.
  destruct Hshape as [Hn _ Hf | Hn _ Hf | Hn _ _ Hf | Hn _ Hf | Hn _ Hf];
    rewrite Hn in Hk; simpl in Hk.
  - apply retrieve_context_spec in Hf as (docs & _ & _ & _ & _ & -> & _). lia.
  - apply generate_answer_spec in Hf as (_ & _ & _ & -> & _). lia.
  - apply verify_answer_spec in Hf as (msg & _ & -> & _). rewrite length_app. lia.
  - apply correct_answer_spec in Hf as (-> & _). rewrite length_app. simpl. lia.
  - rewrite Hf. simpl. lia.
Qed.

(** X16. [corrections_made] has at least one entry for every correction
    applied, and once a correction was applied the marker of
    [correct_answer] is among its entries. *)
Theorem every_correction_is_logged (q : string) (n : nat) (r : run) :
  steps cfg self llm n (start q) = Ok r ->
  (times_executed correct r <= length (corrections_made (state_of r)))%nat
  /\ ((0 < times_executed correct r)%nat ->
      "Answer corrected based on verification" ∈ corrections_made (state_of r)).
Proof.
  intros Hrun. split.
  - eapply (steps_invariant cfg self llm
              (fun r => (times_executed correct r <= length (corrections_made (state_of r)))%nat));
      [| | exact Hrun].
    + apply corrections_count_step.
    + unfold times_executed. simpl. lia.
  - revert Hrun.
    apply (steps_invariant cfg self llm
             (fun r => (0 < times_executed correct r)%nat ->
                       "Answer corrected based on verification" ∈ corrections_made (state_of r)));
      [| unfold times_executed; simpl; lia].
    intros r1 r2 Hinv Hstep.
    pose proof (corrections_step cfg self llm r1 r2 Hstep) as [extra Hext].
    destruct (step_inv cfg self llm r1 r2 Hstep) as [[_ ->] | (_ & Hex & Hshape)]; [exact Hinv |].
    pose proof (times_executed_step correct r1 r2 Hex) as Hk.
    destruct (decide (next r1 = correct)) as [Hc | Hc].
    + intros _. destruct Hshape as [Hn | Hn | Hn | Hn _ Hf | Hn]; try congruence.
      apply correct_answer_spec in Hf as (-> & _).
      apply elem_of_app. right. apply list_elem_of_singleton. reflexivity.
    + intros Hpos. rewrite Hext. apply elem_of_app. left. apply Hinv. lia.
Qed.

End Counting.

Section Reporting.
Context `{L : Libraries}.
Variable cfg : Config.
Variable self : DocumentProcessor.
Variable llm : llm_oracle.

Lemma metadata_known_start (q : string) : metadata_known cfg self q (start q).
Proof. split; [reflexivity | exact I]. Qed.

Lemma metadata_known_step (q : string) (r r' : run) :
  metadata_known cfg self q r ->
  step cfg self llm r = Ok r' ->
  metadata_known cfg self q r'.
Proof.
  intros [Hq Hinv] Hstep. unfold step in Hstep. unfold metadata_known.
  destruct (next r) eqn:Hn.
  - apply rbind_Ok in Hstep as (st & Hst & Hstep). injection Hstep as <-. simpl.
    unfold retrieve_context in Hst. apply rbind_Ok in Hst as (docs & Hdocs & Hst).
    injection Hst as <-. simpl. split; [exact Hq |]. exists docs. rewrite <- Hq. auto.
  - apply rbind_Ok in Hstep as (st & Hst & Hstep). injection Hstep as <-. simpl.
    unfold generate_answer in Hst. apply rbind_Ok in Hst as (msg & _ & Hst).
    injection Hst as <-. simpl. auto.
  - apply rbind_Ok in Hstep as (st & Hst & Hstep).
    assert (Hkeep : question st = q /\ metadata st = metadata (state_of r)).
    { unfold verify_answer in Hst. apply rbind_Ok in Hst as (msg & _ & Hst).
      destruct (json_loads_content msg) as [| ty | d]; [| discriminate |].
      - injection Hst as <-. simpl. auto.
      - destruct (v_verification_status d); [| discriminate].
        destruct (v_confidence d); [| discriminate].
        injection Hst as <-. simpl. auto. }
    destruct Hkeep as [Hq' Hm'].
    destruct (should_correct_routes cfg st) as [Hr | Hr]; rewrite Hr in Hstep;
      injection Hstep as <-; simpl; rewrite Hm'; auto.
  - apply rbind_Ok in Hstep as (st & Hst & Hstep). injection Hstep as <-. simpl.
    unfold correct_answer in Hst. apply rbind_Ok in Hst as (msg & _ & Hst).
    injection Hst as <-. simpl. auto.
  - injection Hstep as <-. simpl. split; [exact Hq |].
    destruct Hinv as (docs & Hdocs & Hm). exists docs. split; [exact Hdocs |].
    unfold finalized_metadata. simpl. rewrite Hm. reflexivity.
  - injection Hstep as <-. rewrite Hn. auto.
Qed.

(** What a response is: the state of a run that has reached [END]. *)
Lemma query_Some (q : string) (fuel : nat) (response : RAGResponse) :
  query cfg self llm q fuel = Ok (Some response) ->
  exists r,
    steps cfg self llm fuel (start q) = Ok r /\ next r = END
    /\ response = response_of (state_of r).
Proof.
  unfold query. intros H. apply rbind_Ok in H as (r & Hrun & H).
  exists r. split; [exact Hrun |].
  destruct (next r); try discriminate. injection H as <-. auto.
Qed.

Lemma response_facts (q : string) (fuel : nat) (response : RAGResponse) :
  query cfg self llm q fuel = Ok (Some response) ->
  exists docs st,
    fst (search_documents cfg q None self) = Ok docs
    /\ response = response_of st
    /\ sources st = map source_or_unknown docs
    /\ iteration_count st = 1
    /\ metadata st = finalized_metadata docs st.
Proof.
  intros H. apply query_Some in H as (r & Hrun & Hend & ->).
  assert (Hm : metadata_known cfg self q r).
  { eapply (steps_invariant cfg self llm (metadata_known cfg self q));
      [| apply metadata_known_start | exact Hrun].
    apply metadata_known_step. }
  assert (Hs : retrieved_once cfg self q r).
  { eapply (steps_invariant cfg self llm (retrieved_once cfg self q));
      [| apply retrieved_once_start | exact Hrun].
    apply retrieved_once_step. }
  assert (Hg : generated_once r).
  { eapply (steps_invariant cfg self llm generated_once); [| apply generated_once_start | exact Hrun].
    apply generated_once_step. }
  destruct Hm as [_ Hm]. rewrite Hend in Hm. destruct Hm as (docs & Hdocs & Hm).
  destruct Hs as [_ [(Hr & _) | (_ & _ & docs' & Hdocs' & _ & Hsrc)]]; [congruence |].
  destruct Hg as [([Hr | Hr] & _) | (_ & _ & _ & Hit)]; [congruence.. |].
  rewrite Hdocs in Hdocs'. injection Hdocs' as <-.
  exists docs, (state_of r). auto.
Qed.

(** X17. In every response of [query] the metadata agree with the rest:
    retrieved_docs is the number of sources, total_corrections the
    length of [corrections_made], final_iteration_count is 1, and
    source_files lists each source once. *)
Theorem response_metadata_consistent (q : string) (fuel : nat) (response : RAGResponse) :
  query cfg self llm q fuel = Ok (Some response) ->
  r_metadata response !! "retrieved_docs" = Some (VInt (len (r_sources response)))
  /\ r_metadata response !! "total_corrections"
     = Some (VInt (len (r_corrections_made response)))
  /\ r_metadata response !! "final_iteration_count" = Some (VInt 1)
  /\ exists files,
       r_metadata response !! "source_files" = Some (VStrs files)
       /\ NoDup files
       /\ forall s, s ∈ files <-> s ∈ r_sources response.
Proof.
  intros H. apply response_facts in H as (docs & st & _ & -> & Hsrc & Hit & Hm).
  unfold response_of. simpl. rewrite Hm, Hsrc. unfold finalized_metadata, retrieved_metadata.
  rewrite Hit. unfold len. rewrite length_map.
  split; [reflexivity |]. split; [reflexivity |]. split; [reflexivity |].
  exists (remove_dups (map source_or_unknown docs)). split; [reflexivity |]. split.
  - apply NoDup_remove_dups.
  - intros s. apply elem_of_remove_dups.
Qed.

End Reporting.

(** * The display helpers and the application *)

Section Display.
Context `{L : Libraries} `{R : Runtime}.

Lemma unique_in_order_spec (sources unique_sources : list string) (seen : gset string) :
  (forall x, x ∈ seen <-> x ∈ unique_sources) ->
  NoDup unique_sources ->
  NoDup (unique_in_order sources unique_sources seen)
  /\ (forall x, x ∈ unique_in_order sources unique_sources seen
                <-> x ∈ unique_sources \/ x ∈ sources)
  /\ exists added,
       unique_in_order sources unique_sources seen = (unique_sources ++ added)%list
       /\ added `sublist_of` sources.
Proof.
  revert unique_sources seen.
  induction sources as [| s rest IH]; intros u seen Hseen Hnd; simpl.
  - split; [exact Hnd |]. split; [intros x; rewrite elem_of_nil; tauto |].
    exists []. rewrite app_nil_r. split; [reflexivity | constructor].
  - destruct (decide (s ∈ seen)) as [Hin | Hout].
    + destruct (IH u seen Hseen Hnd) as (H1 & H2 & added & H3 & H4).
      split; [exact H1 |]. split.
      * intros x. rewrite H2, elem_of_cons. apply Hseen in Hin.
        split; [tauto | intros [Hx | [-> | Hx]]; auto].
      * exists added. split; [exact H3 |]. now apply sublist_cons.
    + destruct (IH (u ++ [s])%list ({[s]} ∪ seen)) as (H1 & H2 & added & H3 & H4).
      * intros x. rewrite elem_of_union, elem_of_singleton, elem_of_app, list_elem_of_singleton.
        rewrite Hseen. tauto.
      * apply NoDup_app. split; [exact Hnd |]. split; [| apply NoDup_singleton].
        intros x Hx Hx'. apply list_elem_of_singleton in Hx' as ->. apply Hout, Hseen, Hx.
      * split; [exact H1 |]. split.
        -- intros x. rewrite H2, elem_of_app, list_elem_of_singleton, elem_of_cons. tauto.
        -- exists (s :: added). rewrite H3, <- app_assoc. split; [reflexivity |].
           now apply sublist_skip.
Qed.

Lemma unique_in_order_NoDup (sources unique_sources : list string) (seen : gset string) :
  (forall x, x ∈ sources -> x ∉ seen) ->
  NoDup sources ->
  unique_in_order sources unique_sources seen = (unique_sources ++ sources)%list.
Proof.
  revert unique_sources seen.
  induction sources as [| s rest IH]; intros u seen Hfresh Hnd; simpl.
  - now rewrite app_nil_r.
  - apply NoDup_cons in Hnd as [Hs Hnd].
    destruct (decide (s ∈ seen)) as [Hin | _];
      [exfalso; apply (Hfresh s); [apply elem_of_cons; auto | exact Hin] |].
    rewrite IH; [now rewrite <- app_assoc | | exact Hnd].
    intros x Hx. rewrite elem_of_union, elem_of_singleton.
    intros [-> | Hx']; [contradiction | apply (Hfresh x); [apply elem_of_cons; auto | exact Hx']].
Qed.

Lemma unique_in_order_extends (sources unique_sources : list string) (seen : gset string) :
  unique_sources `prefix_of` unique_in_order sources unique_sources seen.
Proof.
  revert unique_sources seen.
  induction sources as [| s rest IH]; intros u seen; simpl; [reflexivity |].
  destruct (decide (s ∈ seen)); [apply IH |].
  etransitivity; [apply prefix_app_r; reflexivity | apply IH].
Qed.

Lemma unique_in_order_app (pre post unique_sources : list string) (seen : gset string) :
  unique_in_order (pre ++ post) unique_sources seen
  = unique_in_order post (unique_in_order pre unique_sources seen) (list_to_set pre ∪ seen).
Proof.
  revert unique_sources seen.
  induction pre as [| s rest IH]; intros u seen; simpl.
  - f_equal. apply set_eq. intros x. rewrite elem_of_union, elem_of_empty. tauto.
  - destruct (decide (s ∈ seen)) as [Hin | Hout]; rewrite IH; f_equal;
      apply set_eq; intros x;
      rewrite !elem_of_union, ?elem_of_singleton; [| tauto].
    split; [tauto | intros [[-> | Hx] | Hx]; auto].
Qed.

Lemma unique_in_order_skips (s : string) (sources unique_sources : list string)
    (seen : gset string) :
  s ∈ seen ->
  unique_in_order sources unique_sources seen
  = unique_in_order (filter (fun x => x <> s) sources) unique_sources seen.
Proof.
  revert unique_sources seen.
  induction sources as [| x rest IH]; intros u seen Hs; [reflexivity |].
  rewrite filter_cons. destruct (decide (x <> s)) as [Hne | Heq]; simpl.
  - destruct (decide (x ∈ seen)); apply IH; [exact Hs |].
    apply elem_of_union. now right.
  - assert (x = s) as -> by (destruct (decide (x = s)); [assumption | contradiction]).
    destruct (decide (s ∈ seen)); [now apply IH | contradiction].
Qed.

Lemma unique_in_order_shift (s : string) (sources unique_sources : list string)
    (seen : gset string) :
  (forall x, x ∈ sources -> x <> s) ->
  unique_in_order sources (s :: unique_sources) ({[s]} ∪ seen)
  = s :: unique_in_order sources unique_sources seen.
Proof.
  revert unique_sources seen.
  induction sources as [| x rest IH]; intros u seen Hne; [reflexivity |]. simpl.
  assert (Hx : x <> s) by (apply Hne, elem_of_cons; auto).
  assert (Hrest : forall y, y ∈ rest -> y <> s)
    by (intros y Hy; apply Hne, elem_of_cons; auto).
  destruct (decide (x ∈ {[s]} ∪ seen)) as [Hin | Hout];
    destruct (decide (x ∈ seen)) as [Hin' | Hout'].
  - now apply IH.
  - apply elem_of_union in Hin as [Hin | Hin]; [| contradiction].
    now apply elem_of_singleton in Hin.
  - exfalso. apply Hout, elem_of_union. now right.
  - rewrite <- (IH (u ++ [x])%list ({[x]} ∪ seen) Hrest). f_equal.
    apply set_eq. intros y. rewrite !elem_of_union, !elem_of_singleton. tauto.
Qed.

(** X18. The list [format_sources_list] numbers holds every source once,
    in the order of first appearance: it has no duplicate and the same
    members as [sources]; what it is for the beginning of [sources] is
    the beginning of what it is for [sources], so a source met earlier
    comes earlier; it starts with the first source, followed by the list
    for the rest without the copies of that source; it is a sublist of
    [sources], and [sources] itself when [sources] has no duplicate. *)
Theorem format_sources_list_lists_each_source_once (sources : list string) :
  NoDup (unique_in_order sources [] ∅)
  /\ (forall x, x ∈ unique_in_order sources [] ∅ <-> x ∈ sources)
  /\ unique_in_order sources [] ∅ `sublist_of` sources
  /\ head (unique_in_order sources [] ∅) = head sources
  /\ (NoDup sources -> unique_in_order sources [] ∅ = sources)
  /\ (forall pre post, sources = (pre ++ post)%list ->
        unique_in_order pre [] ∅ `prefix_of` unique_in_order sources [] ∅)
  /\ (forall s rest, sources = s :: rest ->
        unique_in_order sources [] ∅
        = s :: unique_in_order (filter (fun x => x <> s) rest) [] ∅).
Proof.
  destruct (unique_in_order_spec sources [] ∅) as (H1 & H2 & added & H3 & H4);
    [intros x; rewrite elem_of_empty, elem_of_nil; tauto | constructor |].
  split; [exact H1 |]. split; [intros x; rewrite H2, elem_of_nil; tauto |].
  split; [rewrite H3; exact H4 |]. split; [| split; [| split]].
  - destruct sources as [| s rest]; [reflexivity |]. simpl.
    destruct (decide (s ∈ (∅ : gset string))) as [Hin | _];
      [now apply elem_of_empty in Hin |].
    destruct (unique_in_order_spec rest [s] ({[s]} ∪ ∅)) as (_ & _ & added' & -> & _);
      [| apply NoDup_singleton | reflexivity].
    intros x. rewrite elem_of_union, elem_of_singleton, elem_of_empty, list_elem_of_singleton.
    tauto.
  - intros Hnd. apply (unique_in_order_NoDup sources [] ∅); [| exact Hnd].
    intros x _ Hx. now apply elem_of_empty in Hx.
  - intros pre post ->. rewrite unique_in_order_app. apply unique_in_order_extends.
  - intros s rest ->. simpl.
    destruct (decide (s ∈ (∅ : gset string))) as [Hin | _];
      [now apply elem_of_empty in Hin |].
    rewrite (unique_in_order_skips s rest [s] ({[s]} ∪ ∅))
      by (apply elem_of_union; left; now apply elem_of_singleton).
    apply (unique_in_order_shift s _ [] ∅).
    intros x Hx. apply list_elem_of_filter in Hx. tauto.
Qed.

(** X19. [format_metadata] shows nothing of the statistics of the
    index: of the dictionary [get_vectorestore_stats] returns, for every
    document processor, it makes "No metadata available", although the
    dictionary is not empty; it has none of the four keys
    [format_metadata] looks for. *)
Theorem vectorstore_stats_are_not_displayed (self : DocumentProcessor) :
  exists stats,
    fst (get_vectorestore_stats self) = Ok stats
    /\ stats_dict stats <> ∅
    /\ stats_dict stats !! "total_chunks" = Some (VInt (stats_total_chunks stats))
    /\ format_metadata (stats_dict stats) = Ok "No metadata available".
Proof.
  unfold get_vectorestore_stats, mbind, method_bind, bind, read_self, ret.
  destruct (vectorstore self); eexists; (split; [reflexivity |]); simpl;
    (split; [apply insert_non_empty |]); (split; [reflexivity |]);
    unfold format_metadata; case_decide; reflexivity.
Qed.

(** X20. [validate_file_type] with the configured list accepts a path
    exactly when [load_documents] has a loader for its suffix, and
    [load_documents] yields no document for a path it rejects. *)
Theorem validate_file_type_matches_loaders (file_path : string) :
  (validate_file_type file_path LEGAL_DOCUMENTS_TYPES = true
   <-> exists ld, choose_loader (str_lower (path_suffix file_path)) = Ok ld)
  /\ (validate_file_type file_path LEGAL_DOCUMENTS_TYPES = false ->
      forall cfg fs documents, load_documents cfg fs file_path <> Ok (Some documents)).
Proof.
  unfold validate_file_type. split.
  - rewrite bool_decide_eq_true. symmetry. apply choose_loader_supported.
  - rewrite bool_decide_eq_false. intros Hno cfg fs documents Hload.
    apply load_documents_stamps_metadata_loader in Hload as (ld & Hld).
    apply Hno. apply choose_loader_supported. eauto.
Qed.

End Display.

Section Application.
Context `{L : Libraries} `{R : Runtime}.
Variable cfg : Config.
Variable UPLOADS_DIR : string.

(** X21. For every response of [query], [format_metadata] of its
    metadata is four lines: the number of sources, the number of distinct
    sources, one processing iteration, and the length of
    [corrections_made]. *)
Theorem response_metadata_display (self : DocumentProcessor) (llm : llm_oracle)
    (q : string) (fuel : nat) (response : RAGResponse) :
  query cfg self llm q fuel = Ok (Some response) ->
  format_metadata (r_metadata response) =
    Ok (String.concat nl
          [ "📊 Retrieved Documents: " +:+ pretty (len (r_sources response));
            "📁 Source Files: " +:+ pretty (len (remove_dups (r_sources response)));
            "🔄 Processing Iterations: 1";
            "🔧 Total Corrections: " +:+ pretty (len (r_corrections_made response)) ]).
Proof.
  intros H. apply response_facts in H as (docs & st & _ & -> & Hsrc & Hit & Hm).
  unfold response_of. simpl. rewrite Hm, Hsrc. unfold finalized_metadata, retrieved_metadata.
  rewrite Hit. unfold format_metadata.
  case_decide as Hempty; [now apply insert_non_empty in Hempty |].
  unfold len. rewrite length_map. reflexivity.
Qed.

Lemma unique_path_free (fuel : nat) (fs : filesystem) (name file_path found : string)
    (counter : Z) :
  unique_path fuel fs UPLOADS_DIR name file_path counter = Some found ->
  fs found = None.
Proof.
  revert file_path counter. induction fuel as [| fuel IH]; intros file_path counter; simpl.
  - destruct (fs file_path) eqn:E; [discriminate |]. intros H. now injection H as <-.
  - destruct (fs file_path) eqn:E; [apply IH |]. intros H. now injection H as <-.
Qed.

Lemma unique_path_first (fs : filesystem) (name : string) (k : nat) :
  fs (candidate UPLOADS_DIR name k) = None ->
  forall (i fuel : nat),
    (i <= k)%nat -> (k - i <= fuel)%nat ->
    (forall j, (i <= j < k)%nat -> fs (candidate UPLOADS_DIR name j) <> None) ->
    unique_path fuel fs UPLOADS_DIR name (candidate UPLOADS_DIR name i) (Z.of_nat i + 1)
    = Some (candidate UPLOADS_DIR name k).
Proof.
  intros Hfree i fuel. revert i. induction fuel as [| fuel IH]; intros i Hik Hfuel Htaken.
  - assert (i = k) as -> by lia. simpl. now rewrite Hfree.
  - destruct (decide (i = k)) as [-> | Hne]; [simpl; now rewrite Hfree |].
    simpl. destruct (fs (candidate UPLOADS_DIR name i)) eqn:E;
      [| exfalso; apply (Htaken i); [lia | exact E]].
    replace (path_join UPLOADS_DIR (renamed name (Z.of_nat i + 1)))
      with (candidate UPLOADS_DIR name (S i))
      by (unfold candidate; now rewrite Nat2Z.inj_succ).
    replace (Z.of_nat i + 1 + 1) with (Z.of_nat (S i) + 1) by lia.
    apply IH; [lia | lia |]. intros j Hj. apply Htaken. lia.
Qed.

(** X22. [save_uploaded_file] never overwrites: the path it returns
    named no file before, holds the uploaded bytes afterwards, and every
    other path holds what it held. *)
Theorem save_uploaded_file_never_overwrites (fuel : nat) (fs fs' : filesystem)
    (uploaded_file : uploaded) (file_path : string) :
  save_uploaded_file fuel fs uploaded_file UPLOADS_DIR = Some (file_path, fs') ->
  fs file_path = None
  /\ fs' file_path = Some (up_data uploaded_file)
  /\ forall p, p <> file_path -> fs' p = fs p.
Proof.
  unfold save_uploaded_file. intros H.
  destruct (unique_path _ _ _ _ _ _) as [found |] eqn:E; [| discriminate].
  injection H as <- <-. apply unique_path_free in E.
  split; [exact E |]. unfold write_file. split.
  - now rewrite String.eqb_refl.
  - intros p Hp. apply String.eqb_neq in Hp. now rewrite Hp.
Qed.

(** X23. [save_uploaded_file] saves under the first name that is free:
    the uploaded name, else the name with _1, _2, ... before its last
    suffix; when the first [k] of these names are taken and the next is
    free, [k] rounds of the loop are enough. *)
Theorem save_uploaded_file_takes_first_free_name (fuel k : nat) (fs : filesystem)
    (uploaded_file : uploaded) :
  (forall j, (j < k)%nat -> fs (candidate UPLOADS_DIR (up_name uploaded_file) j) <> None) ->
  fs (candidate UPLOADS_DIR (up_name uploaded_file) k) = None ->
  (k <= fuel)%nat ->
  save_uploaded_file fuel fs uploaded_file UPLOADS_DIR =
    Some (candidate UPLOADS_DIR (up_name uploaded_file) k,
          write_file fs (candidate UPLOADS_DIR (up_name uploaded_file) k)
            (up_data uploaded_file)).
Proof.
  intros Htaken Hfree Hfuel. unfold save_uploaded_file.
  change (path_join UPLOADS_DIR (up_name uploaded_file))
    with (candidate UPLOADS_DIR (up_name uploaded_file) 0).
  change 1 with (Z.of_nat 0 + 1).
  rewrite (unique_path_first fs (up_name uploaded_file) k Hfree 0 fuel); [reflexivity | lia | lia |].
  intros j Hj. apply Htaken. lia.
Qed.

Lemma process_files_fails (fuel : nat) (files : list uploaded) (fs : filesystem)
    (self : LegalRAGApp) :
  files <> [] ->
  process_files cfg UPLOADS_DIR fuel files fs self =
    Some (error_texts
            "❌ Error processing files: type object 'Config' has no attribute 'LEGAL_DOCUMENT_TYPES'",
          fs, self).
Proof.
  intros Hne. destruct files as [| file rest]; [contradiction |].
  destruct self as [system tracked]. reflexivity.
Qed.

(** X24. [process_files] on one file or more always ends in its error
    branch: [Config.LEGAL_DOCUMENT_TYPES] is not a name of [class Config]
    (which defines LEGAL_DOCUMENTS_TYPES), so the first round of the loop
    raises AttributeError before any file is checked, saved or ingested;
    the disk and the application are left as they were. *)
Theorem process_files_never_ingests (fuel : nat) (files : list uploaded) (fs : filesystem)
    (self : LegalRAGApp) :
  files <> [] ->
  Config_getattr "LEGAL_DOCUMENT_TYPES"
    = Raise (Exn AttributeError "type object 'Config' has no attribute 'LEGAL_DOCUMENT_TYPES'")
  /\ Config_getattr "LEGAL_DOCUMENTS_TYPES" = Ok (AttrStrs LEGAL_DOCUMENTS_TYPES)
  /\ process_files cfg UPLOADS_DIR fuel files fs self =
       Some (error_texts
               "❌ Error processing files: type object 'Config' has no attribute 'LEGAL_DOCUMENT_TYPES'",
             fs, self).
Proof.
  intros Hne. split; [reflexivity |]. split; [reflexivity |].
  now apply process_files_fails.
Qed.


End Application.

Section Rounds.
Context `{L : Libraries}.
Variable cfg : Config.
Variable self : DocumentProcessor.
Variable llm : llm_oracle.

Lemma first_verdict_awaited (q : string) (docs : list Document) (k : nat) :
  fst (search_documents cfg q None self) = Ok docs ->
  satisfied_after cfg k llm ->
  exists r, steps cfg self llm 2 (start q) = Ok r /\ awaiting_verdict q 1 r.
Proof.
  intros Hsearch Hllm.
  destruct (step_retrieve cfg self llm (start q) docs eq_refl Hsearch)
    as (st1 & H1 & Hq1 & _ & _ & Hi1).
  set (r1 := after (start q) generate st1 0) in *.
  destruct (Hllm (llm_calls r1)
              (answer_prompt (String.concat (nl ++ nl) (context (state_of r1)))
                 (question (state_of r1)))) as (gen & Hgen & _).
  destruct (step_generate cfg self llm r1 gen eq_refl Hgen) as (st2 & H2 & Hq2 & _ & _ & _ & Hi2).
  exists (after r1 verify st2 1). split.
  - etransitivity; [exact (steps_cons cfg self llm 1 _ _ H1) |].
    etransitivity; [exact (steps_cons cfg self llm 0 _ _ H2) |]. reflexivity.
  - repeat split; simpl.
    + rewrite Hq2. exact Hq1.
    + rewrite Hi2. simpl. rewrite Hi1. reflexivity.
Qed.

Lemma correction_round (q : string) (k j : nat) (r : run) :
  1 < MAX_CORRECTION_ITERATIONS cfg ->
  satisfied_after cfg k llm ->
  (j < k)%nat ->
  awaiting_verdict q (2 * j + 1) r ->
  exists r', steps cfg self llm 2 r = Ok r' /\ awaiting_verdict q (2 * S j + 1) r'.
Proof.
  intros Hmax Hllm Hj (Hn & Hcalls & Hq & Hit).
  destruct (Hllm (llm_calls r)
              (verification_prompt (question (state_of r)) (answer (state_of r))
                 (String.concat (nl ++ nl) (context (state_of r))))) as (msg & Hmsg & Hask).
  rewrite Hcalls in Hask.
  destruct (Nat.ltb_spec (2 * j + 1) (2 * k + 1)) as [_ | Hge]; [| lia].
  destruct (verify_when_asked cfg (llm (llm_calls r)) (state_of r) msg Hmsg Hask)
    as (st1 & Hv & Hq1 & Hi1 & Hsc); [lia |].
  assert (H1 : step cfg self llm r = Ok (after r correct st1 (S (llm_calls r)))).
  { unfold step. rewrite Hn, Hv. simpl. rewrite Hsc. reflexivity. }
  set (r1 := after r correct st1 (S (llm_calls r))) in *.
  destruct (Hllm (llm_calls r1)
              (correction_prompt (question st1) (answer st1)
                 (String.concat (nl ++ nl) (context st1))
                 (String.concat nl (corrections_made st1)))) as (fix_ & Hfix & _).
  assert (H2 : exists st2, step cfg self llm r1 = Ok (after r1 verify st2 (S (llm_calls r1)))
                           /\ question st2 = question st1
                           /\ iteration_count st2 = iteration_count st1).
  { unfold step. change (next r1) with correct. change (state_of r1) with st1.
    unfold correct_answer. rewrite Hfix. simpl. eexists. split; [reflexivity |]. auto. }
  destruct H2 as (st2 & H2 & Hq2 & Hi2).
  exists (after r1 verify st2 (S (llm_calls r1))). split.
  - etransitivity; [exact (steps_cons cfg self llm 1 _ _ H1) |].
    etransitivity; [exact (steps_cons cfg self llm 0 _ _ H2) |]. reflexivity.
  - repeat split; simpl; [lia | congruence | congruence].
Qed.

Lemma correction_rounds (q : string) (k j : nat) (r : run) :
  1 < MAX_CORRECTION_ITERATIONS cfg ->
  satisfied_after cfg k llm ->
  (j <= k)%nat ->
  awaiting_verdict q 1 r ->
  exists r', steps cfg self llm (2 * j) r = Ok r' /\ awaiting_verdict q (2 * j + 1) r'.
Proof.
  intros Hmax Hllm. induction j as [| j IH]; intros Hj Hr.
  - exists r. split; [reflexivity | exact Hr].
  - destruct IH as (r1 & Hrun1 & Hr1); [lia | exact Hr |].
    destruct (correction_round q k j r1 Hmax Hllm) as (r2 & Hrun2 & Hr2); [lia | exact Hr1 |].
    exists r2. split; [| exact Hr2].
    replace (2 * S j)%nat with (2 * j + 2)%nat by lia.
    exact (steps_add cfg self llm _ _ _ _ _ Hrun1 Hrun2).
Qed.

Lemma accepted_round (q : string) (k : nat) (r : run) :
  satisfied_after cfg k llm ->
  awaiting_verdict q (2 * k + 1) r ->
  exists r', steps cfg self llm 2 r = Ok r' /\ next r' = END
             /\ llm_calls r' = (2 * k + 2)%nat /\ iteration_count (state_of r') = 1.
Proof.
  intros Hllm (Hn & Hcalls & Hq & Hit).
  destruct (Hllm (llm_calls r)
              (verification_prompt (question (state_of r)) (answer (state_of r))
                 (String.concat (nl ++ nl) (context (state_of r))))) as (msg & Hmsg & Hacc).
  rewrite Hcalls in Hacc.
  destruct (Nat.ltb_spec (2 * k + 1) (2 * k + 1)) as [Hlt | _]; [lia |].
  assert (Hdec : decodes (json_loads_content msg)).
  { destruct (json_loads_content msg) as [| ty | d]; simpl in *; try contradiction.
    destruct Hacc as (status & conf & -> & -> & _). split; eauto. }
  destruct (verify_then_finalize cfg (llm (llm_calls r)) (state_of r) msg Hmsg Hdec)
    as (st1 & Hv & Hsc & Hi1 & _ & _); [now right |].
  assert (H1 : step cfg self llm r = Ok (after r finalize st1 (S (llm_calls r)))).
  { unfold step. rewrite Hn, Hv. simpl. rewrite Hsc. reflexivity. }
  exists (after (after r finalize st1 (S (llm_calls r))) END (finalize_response st1)
            (S (llm_calls r))).
  split; [| repeat split; simpl; [lia | congruence]].
  etransitivity; [exact (steps_cons cfg self llm 1 _ _ H1) |]. reflexivity.
Qed.

Lemma steps_at_END (n : nat) (r : run) :
  next r = END -> steps cfg self llm n r = Ok r.
Proof.
  intros Hend. induction n as [| n IH]; [reflexivity |].
  simpl. unfold step. rewrite Hend. simpl. fold (step cfg self llm). exact IH.
Qed.

Lemma steps_within (n m : nat) (r r' : run) :
  steps cfg self llm n r = Ok r' -> next r' = END -> (n <= m)%nat ->
  steps cfg self llm m r = Ok r'.
Proof.
  intros Hrun Hend Hle. replace m with (n + (m - n))%nat by lia.
  exact (steps_add cfg self llm _ _ _ _ _ Hrun (steps_at_END (m - n) r' Hend)).
Qed.

(** X26. With a budget of two or more, when the model answers every
    call and the verifier asks for a correction on its first [k]
    verdicts and accepts the next (each verdict being text that is not
    JSON or an object of the types the prompt asks for), and the
    [2 * k + 4] node executions this takes are within the limit of the
    graph library, that is for [k] up to 10, the query ends after
    exactly [2 * k + 4] node executions, with [k] corrections, [k + 1]
    verifications and [iteration_count] 1, and returns the response of
    the state reached. *)
Theorem query_ends_at_first_accepted_verdict (q : string) (docs : list Document) (k : nat) :
  1 < MAX_CORRECTION_ITERATIONS cfg ->
  (2 * k + 4 <= recursion_limit)%nat ->
  fst (search_documents cfg q None self) = Ok docs ->
  satisfied_after cfg k llm ->
  exists r,
    steps cfg self llm (2 * k + 4) (start q) = Ok r
    /\ next r = END
    /\ times_executed correct r = k
    /\ times_executed verify r = S k
    /\ iteration_count (state_of r) = 1
    /\ LegalRAGSystem_query cfg self llm q = Ok (response_of (state_of r)).
Proof.
  intros Hmax Hlimit Hsearch Hllm.
  destruct (first_verdict_awaited q docs k Hsearch Hllm) as (r0 & Hrun0 & Hr0).
  destruct (correction_rounds q k k r0 Hmax Hllm) as (r1 & Hrun1 & Hr1); [lia | exact Hr0 |].
  destruct (accepted_round q k r1 Hllm Hr1) as (r2 & Hrun2 & Hend & Hcalls & Hit).
  assert (Hrun : steps cfg self llm (2 * k + 4) (start q) = Ok r2).
  { replace (2 * k + 4)%nat with (2 + (2 * k + 2))%nat by lia.
    apply (steps_add cfg self llm _ _ _ _ _ Hrun0).
    exact (steps_add cfg self llm _ _ _ _ _ Hrun1 Hrun2). }
  exists r2. split; [exact Hrun |]. split; [exact Hend |].
  assert (Hinv : counted r2).
  { eapply (steps_invariant cfg self llm counted); [| apply counted_start | exact Hrun].
    apply counted_step. }
  destruct Hinv as [Hc Hinv]. rewrite Hend in Hinv.
  destruct Hinv as (_ & Hg & Hv & _). repeat split; [lia | lia | exact Hit |].
  unfold LegalRAGSystem_query, query.
  rewrite (steps_within _ _ _ _ Hrun Hend Hlimit). simpl. rewrite Hend. reflexivity.
Qed.

End Rounds.

Section Batches.
Context `{L : Libraries}.
Variable cfg : Config.

(** X27. Over any sequence of calls of [process_uploaded_file] on a
    processor, whatever the files and the disk at each call, every call
    returns a result and at most one of them reports "document processed
    successfully"; none does when a file had been indexed before.  All
    the other calls report the file as already processed or as
    failed. *)
Theorem at_most_one_ingestion_reports_new (jobs : list (filesystem * string))
    (dp : DocumentProcessor) :
  exists results,
    ingest_results cfg jobs dp = map Ok results
    /\ (length (newly_indexed results) <= 1)%nat
    /\ (processed_doc dp !! md5_hexdigest [] <> None -> newly_indexed results = [])
    /\ Forall (fun res =>
                 message res = "document processed successfully"
                 \/ message res = "File already processed"
                 \/ success res = false) results.
Proof.
  revert dp. induction jobs as [| [fs p] rest IH]; intros dp.
  - exists []. simpl. repeat split; auto.
  - destruct (process_uploaded_file_spec cfg fs p dp) as (res & dp1 & Hrun & Hcase).
    destruct (IH dp1) as (results & Hrest & Hone & Hnone & Hall).
    exists (res :: results). split; [simpl; rewrite Hrun, Hrest; reflexivity |].
    unfold newly_indexed in *. rewrite filter_cons.
    destruct Hcase as [e -> -> | h c _ Hseen -> -> | h c Hh Hnew -> Hins].
    + cbn [message]. destruct (decide _) as [Hm | _]; [simpl in Hm; discriminate Hm |].
      repeat split; auto.
    + cbn [message]. destruct (decide _) as [Hm | _]; [discriminate Hm |].
      repeat split; auto.
    + apply get_file_hash_Ok in Hh as ->. cbn [message].
      destruct (decide _) as [_ | Hm]; [| contradiction].
      rewrite Hnone; [simpl; repeat split; [lia | congruence | auto] |].
      rewrite Hins, lookup_insert_eq. discriminate.
Qed.

End Batches.

(** * The claims on sample inputs *)

Section Samples.
#[local] Existing Instance Sample.libraries.
Import Sample.

Lemma Config_default_valid : valid_config Config_default.
Proof. unfold valid_config, Qle. simpl. lia. Qed.

Lemma unsure_llm_never_satisfied : never_satisfied Config_default unsure_llm.
Proof.
  intros n p. destruct p; eexists; (split; [reflexivity |]); simpl; auto.
  exists "VERIFIED", (4 # 10)%Q. repeat split. right. reflexivity.
Qed.

Lemma stubborn_llm_never_satisfied : never_satisfied Config_default stubborn_llm.
Proof.
  intros n p. destruct p; eexists; (split; [reflexivity |]); simpl; auto.
  exists "NEEDS_CORRECTION", (3 # 10)%Q. repeat split. left. reflexivity.
Qed.

Lemma looping_not_done (q : string) (r : run) :
  looping q r -> next r <> finalize /\ next r <> END /\ iteration_count (state_of r) <= 1.
Proof.
  intros [_ [[-> Hi] | [[-> Hi] | [[-> | ->] Hi]]]]; repeat split; try discriminate; lia.
Qed.

(** C1. Under the configuration of [config.py], which is valid, with one
    chunk indexed and a verifier that answers VERIFIED with confidence
    0.4 every time, the run of a query is, after any number of steps,
    still short of [finalize]: it never raises and never reaches [END]. *)
Theorem low_confidence_never_finalizes :
  valid_config Config_default
  /\ forall n, exists r,
       steps Config_default indexed unsure_llm n (start notice_period) = Ok r
       /\ next r <> finalize /\ next r <> END.
Proof.
  split; [exact Config_default_valid |]. intros n.
  destruct (never_satisfied_loops Config_default indexed unsure_llm notice_period [clause])
    with (n := n) as (r & Hrun & Hloop);
    [reflexivity | exact unsure_llm_never_satisfied | reflexivity |].
  exists r. split; [exact Hrun |].
  apply looping_not_done in Hloop as (H1 & H2 & _). auto.
Qed.

(** C3. Under the configuration of [config.py] (three iterations), with
    a verifier that answers NEEDS_CORRECTION every time, [query] has no
    response after any number of steps, and [iteration_count] stays at
    most 1, short of the three allowed. *)
Theorem needs_correction_never_finalizes (fuel : nat) :
  query Config_default indexed stubborn_llm notice_period fuel = Ok None
  /\ exists r,
       steps Config_default indexed stubborn_llm fuel (start notice_period) = Ok r
       /\ iteration_count (state_of r) <= 1
       /\ iteration_count (state_of r) < MAX_CORRECTION_ITERATIONS Config_default.
Proof.
  destruct (never_satisfied_loops Config_default indexed stubborn_llm notice_period [clause])
    with (n := fuel) as (r & Hrun & Hloop);
    [reflexivity | exact stubborn_llm_never_satisfied | reflexivity |].
  apply looping_not_done in Hloop as (H1 & H2 & H3).
  split.
  - unfold query. rewrite Hrun. simpl. destruct (next r); congruence.
  - exists r. split; [exact Hrun |]. split; [exact H3 |]. simpl. lia.
Qed.

(** C4. When the verifier's reply is the empty JSON object, which parses
    and has none of the expected fields, [verify_answer] raises KeyError
    in every state, and the query raises with it. *)
Theorem verify_answer_raises_on_empty_object (state : RAGState) :
  verify_answer (fun _ => Ok (reply "{}" (Dict empty_object))) state
    = Raise (Exn KeyError "'verification_status'")
  /\ query Config_default indexed terse_llm notice_period 3
    = Raise (Exn KeyError "'verification_status'").
Proof. split; reflexivity. Qed.

(** C10 as stated fails on a file of a type that is not supported: on a
    new system the second ingestion of it reports an error again. *)
Lemma second_ingestion_of_unsupported_file_fails :
  let first := process_uploaded_file Config_default disk "setup.exe" DocumentProcessor_init in
  disk "setup.exe" = Some (list_byte_of_string "MZ")
  /\ fst (process_uploaded_file Config_default disk "setup.exe" (snd first)) =
       Ok {| success := false;
             message := "Error processing file: 'NoneType' object is not iterable";
             chunks_added := 0; total_chunks := 0 |}.
Proof. split; reflexivity. Qed.

Lemma generate_answer_runs_once_witness :
  exists r,
    steps Config_default indexed stubborn_llm 6 (start notice_period) = Ok r
    /\ next r = verify
    /\ times_executed generate r = 1%nat
    /\ iteration_count (state_of r) = 1.
Proof.
  eexists. split; [vm_compute; reflexivity |]. split; [reflexivity |].
  eapply (generate_answer_runs_once Config_default indexed stubborn_llm notice_period 6);
    [vm_compute; reflexivity | discriminate | discriminate].
Defined.

Lemma should_correct_decision_witness :
  (iteration_count found_wanting < MAX_CORRECTION_ITERATIONS Config_default
   /\ verification_status found_wanting = "NEEDS_CORRECTION")
  /\ should_correct Config_default found_wanting = "correct".
Proof.
  split; [split; reflexivity |].
  apply (should_correct_decision Config_default indexed stubborn_llm found_wanting);
    [reflexivity | left; reflexivity].
Defined.

Lemma context_and_sources_set_once_witness :
  exists r,
    steps Config_default indexed stubborn_llm 5 (start notice_period) = Ok r
    /\ next r = correct
    /\ length (context (state_of r)) = length (sources (state_of r))
    /\ context (state_of r) = [page_content clause]
    /\ sources (state_of r) = ["lease.txt"].
Proof.
  eexists. split; [vm_compute; reflexivity |]. split; [reflexivity |].
  split; [| split; reflexivity].
  eapply (context_and_sources_set_once Config_default indexed stubborn_llm notice_period 5).
  vm_compute; reflexivity.
Defined.

Lemma corrections_made_append_only_witness :
  exists r',
    step Config_default indexed stubborn_llm before_verify = Ok r'
    /\ corrections_made (state_of r') =
       (corrections_made (state_of before_verify)
          ++ ["The notice period is not in the context"])%list.
Proof.
  eexists. split; [vm_compute; reflexivity |].
  destruct (corrections_made_append_only Config_default indexed stubborn_llm before_verify _ eq_refl)
    as [(msg & Hmsg & Happ) _].
  injection Hmsg as <-. exact Happ.
Defined.

Lemma get_file_hash_ignores_content_witness :
  (disk "lease.txt" = Some (list_byte_of_string "Either party may terminate.")
   /\ disk "setup.exe" = Some (list_byte_of_string "MZ"))
  /\ get_file_hash disk "lease.txt" = Ok "d41d8cd98f00b204e9800998ecf8427e"
  /\ get_file_hash disk "setup.exe" = get_file_hash disk "lease.txt".
Proof.
  split; [split; reflexivity |].
  destruct (get_file_hash_ignores_content Config_default disk disk "lease.txt" "setup.exe"
              _ _ eq_refl eq_refl) as (H1 & H2 & _).
  split; [exact H1 | exact H2].
Defined.

Lemma second_ingestion_adds_nothing_witness :
  let first := process_uploaded_file Config_default disk "lease.txt" DocumentProcessor_init in
  fst first = Ok {| success := true; message := "document processed successfully";
                    chunks_added := 1; total_chunks := 1 |}
  /\ exists res2,
       process_uploaded_file Config_default disk "lease.txt" (snd first) = (Ok res2, snd first)
       /\ success res2 = true /\ chunks_added res2 = 0.
Proof.
  split; [reflexivity |].
  apply (second_ingestion_adds_nothing Config_default disk disk "lease.txt" "lease.txt"
           (list_byte_of_string "Either party may terminate.") DocumentProcessor_init
           (snd (process_uploaded_file Config_default disk "lease.txt" DocumentProcessor_init))
           {| success := true; message := "document processed successfully";
              chunks_added := 1; total_chunks := 1 |});
    reflexivity.
Defined.

Lemma verify_answer_degrades_on_non_json_witness :
  confidence
    (match verify_answer (prose_llm 1%nat) (state_of before_verify) with
     | Ok st => st
     | Raise _ => state_of before_verify
     end) = (1 # 2)%Q.
Proof.
  rewrite (verify_answer_degrades_on_non_json (prose_llm 1%nat) (state_of before_verify)
             (reply "The notice period is 30 days." JSONDecodeError) eq_refl eq_refl).
  reflexivity.
Defined.

Lemma satisfied_llm_accepts : verifier_replies (accepts Config_default) satisfied_llm.
Proof.
  intros n p. destruct p; eexists; (split; [reflexivity |]); simpl; auto.
  exists "VERIFIED", (9 # 10)%Q. repeat split; discriminate.
Qed.

Lemma stubborn_llm_decodes : verifier_replies decodes stubborn_llm.
Proof.
  intros n p. destruct p; eexists; (split; [reflexivity |]); simpl; auto.
Qed.

Lemma satisfied_verifier_finalizes_at_once_witness :
  exists r,
    steps Config_default indexed satisfied_llm 4 (start notice_period) = Ok r
    /\ next r = END /\ llm_calls r = 2%nat /\ corrections_made (state_of r) = [].
Proof.
  destruct (satisfied_verifier_finalizes_at_once Config_default indexed satisfied_llm
              notice_period [clause] eq_refl satisfied_llm_accepts)
    as (r & gen & msg & _ & _ & Hrun & Hend & _ & Hcalls & _).
  exists r. split; [exact Hrun |]. split; [exact Hend |]. split; [exact Hcalls |].
  vm_compute in Hrun. injection Hrun as <-. reflexivity.
Defined.

Lemma budget_of_one_finalizes_witness :
  exists r,
    steps single_pass indexed stubborn_llm 4 (start notice_period) = Ok r
    /\ next r = END
    /\ verification_status (state_of r) = "NEEDS_CORRECTION"
    /\ iteration_count (state_of r) = MAX_CORRECTION_ITERATIONS single_pass.
Proof.
  destruct (budget_of_one_finalizes single_pass indexed stubborn_llm notice_period [clause])
    as (r & Hrun & Hend & _ & Hit); [simpl; lia | reflexivity | exact stubborn_llm_decodes |].
  exists r. split; [exact Hrun |]. split; [exact Hend |]. split; [| exact Hit].
  vm_compute in Hrun. injection Hrun as <-. reflexivity.
Defined.

Lemma iteration_count_bounded_witness :
  exists r,
    steps Config_default indexed stubborn_llm 7 (start notice_period) = Ok r
    /\ iteration_count (state_of r) <= MAX_CORRECTION_ITERATIONS Config_default.
Proof.
  eexists. split; [vm_compute; reflexivity |].
  eapply (iteration_count_bounded Config_default indexed stubborn_llm notice_period 7);
    [exact Config_default_valid | vm_compute; reflexivity].
Defined.

Lemma generator_and_corrector_keep_the_verdict_witness :
  exists r',
    step Config_default indexed stubborn_llm before_correct = Ok r'
    /\ confidence (state_of r') = (3 # 10)%Q
    /\ verification_status (state_of r') = "NEEDS_CORRECTION".
Proof.
  eexists. split; [vm_compute; reflexivity |].
  apply (generator_and_corrector_keep_the_verdict Config_default indexed stubborn_llm
           before_correct); [right; reflexivity | vm_compute; reflexivity].
Defined.

End Samples.

Section MoreSamples.
#[local] Existing Instance Sample.libraries.
#[local] Existing Instance Sample.runtime.
Import Sample.

Lemma load_documents_stamps_metadata_witness :
  load_documents Config_default disk "lease.txt" =
    Ok (Some [ {| page_content := "Either party may terminate.";
                  md_source := Some "lease.txt";
                  md_file_type := Some ".txt";
                  md_file_size_mn := Some (file_size_mb (list_byte_of_string "Either party may terminate."));
                  md_file_hash := Some "d41d8cd98f00b204e9800998ecf8427e" |} ])
  /\ exists ld, choose_loader (str_lower (path_suffix "lease.txt")) = Ok ld.
Proof.
  match goal with |- ?A /\ _ => assert (H : A) by reflexivity end.
  split; [exact H |].
  destruct (load_documents_stamps_metadata Config_default disk "lease.txt" _ H)
    as (f & ld & pages & _ & Hld & _).
  exists ld. exact Hld.
Defined.

Lemma unsupported_type_reported_as_type_error_witness :
  disk "setup.exe" = Some (list_byte_of_string "MZ")
  /\ message (match fst (process_uploaded_file Config_default disk "setup.exe"
                           DocumentProcessor_init) with
              | Ok res => res
              | Raise _ => {| success := true; message := ""; chunks_added := 0;
                              total_chunks := 0 |}
              end)
     = "Error processing file: 'NoneType' object is not iterable".
Proof.
  split; [reflexivity |].
  rewrite (unsupported_type_reported_as_type_error Config_default disk "setup.exe"
             (list_byte_of_string "MZ") DocumentProcessor_init eq_refl).
  - reflexivity.
  - vm_compute. discriminate.
  - unfold LEGAL_DOCUMENTS_TYPES. rewrite !elem_of_cons, elem_of_nil.
    intros [H | [H | [H | []]]]; discriminate.
  - reflexivity.
Defined.

Lemma index_frozen_after_first_success_witness :
  let first := process_uploaded_file Config_default disk "lease.txt" DocumentProcessor_init in
  ingest_all Config_default [(disk, "setup.exe"); (disk, "lease.txt"); (disk, "missing.pdf")]
    (snd first) = snd first.
Proof.
  apply (index_frozen_after_first_success Config_default disk "lease.txt"
           DocumentProcessor_init
           (snd (process_uploaded_file Config_default disk "lease.txt" DocumentProcessor_init))
           {| success := true; message := "document processed successfully";
              chunks_added := 1; total_chunks := 1 |});
    reflexivity.
Defined.

Lemma verification_follows_every_correction_witness :
  exists r,
    steps Config_default indexed stubborn_llm 7 (start notice_period) = Ok r
    /\ times_executed verify r = 3%nat /\ times_executed correct r = 2%nat
    /\ llm_calls r = 6%nat.
Proof.
  eexists. split; [vm_compute; reflexivity |]. split; [reflexivity |]. split; [reflexivity |].
  etransitivity;
    [eapply (verification_follows_every_correction Config_default indexed stubborn_llm
               notice_period 7); vm_compute; reflexivity |].
  reflexivity.
Defined.

Lemma every_correction_is_logged_witness :
  exists r,
    steps Config_default indexed stubborn_llm 7 (start notice_period) = Ok r
    /\ (times_executed correct r <= length (corrections_made (state_of r)))%nat.
Proof.
  eexists. split; [vm_compute; reflexivity |].
  eapply (every_correction_is_logged Config_default indexed stubborn_llm notice_period 7).
  vm_compute; reflexivity.
Defined.

Lemma satisfied_query_answers :
  exists response,
    query Config_default indexed satisfied_llm notice_period 4 = Ok (Some response).
Proof. eexists. vm_compute. reflexivity. Qed.

Lemma response_metadata_consistent_witness :
  exists response,
    query Config_default indexed satisfied_llm notice_period 4 = Ok (Some response)
    /\ r_metadata response !! "final_iteration_count" = Some (VInt 1)
    /\ r_metadata response !! "retrieved_docs" = Some (VInt (len (r_sources response))).
Proof.
  eexists. split; [vm_compute; reflexivity |].
  split;
    eapply (response_metadata_consistent Config_default indexed satisfied_llm notice_period 4);
    vm_compute; reflexivity.
Defined.

Lemma response_metadata_display_witness :
  exists response,
    query Config_default indexed satisfied_llm notice_period 4 = Ok (Some response)
    /\ exists text, format_metadata (r_metadata response) = Ok text.
Proof.
  eexists. split; [vm_compute; reflexivity |].
  eexists.
  eapply (response_metadata_display Config_default indexed satisfied_llm notice_period 4).
  vm_compute; reflexivity.
Defined.

Lemma save_uploaded_file_never_overwrites_witness :
  exists fs',
    save_uploaded_file 5 uploads new_lease "uploads" = Some ("uploads/lease_2.txt", fs')
    /\ uploads "uploads/lease_2.txt" = None
    /\ fs' "uploads/lease_2.txt" = Some (list_byte_of_string "third")
    /\ fs' "uploads/lease.txt" = Some (list_byte_of_string "first").
Proof.
  assert (H : save_uploaded_file 5 uploads new_lease "uploads"
              = Some ("uploads/lease_2.txt",
                      write_file uploads "uploads/lease_2.txt" (up_data new_lease)))
    by reflexivity.
  eexists. split; [exact H |].
  destruct (save_uploaded_file_never_overwrites "uploads" 5 uploads _ new_lease
              "uploads/lease_2.txt" H) as (H1 & H2 & H3).
  split; [exact H1 |]. split; [exact H2 |].
  rewrite H3; [reflexivity | discriminate].
Defined.

Lemma save_uploaded_file_takes_first_free_name_witness :
  fst <$> save_uploaded_file 2 uploads new_lease "uploads" = Some "uploads/lease_2.txt".
Proof.
  rewrite (save_uploaded_file_takes_first_free_name "uploads" 2 2 uploads new_lease).
  - reflexivity.
  - intros [| [| j]] Hj; [discriminate | discriminate | lia].
  - reflexivity.
  - lia.
Defined.

Lemma process_files_never_ingests_witness :
  process_files Config_default "uploads" 5 [new_lease] uploads LegalRAGApp_init =
    Some (error_texts
            "❌ Error processing files: type object 'Config' has no attribute 'LEGAL_DOCUMENT_TYPES'",
          uploads, LegalRAGApp_init).
Proof.
  apply (process_files_never_ingests Config_default "uploads" 5 [new_lease] uploads
           LegalRAGApp_init).
  discriminate.
Defined.

Lemma warming_llm_satisfied_after : satisfied_after Config_default 2 warming_llm.
Proof.
  intros n p. destruct p; eexists; (split; [reflexivity |]); simpl; auto.
  destruct n as [| [| [| [| [| n]]]]]; simpl;
    eexists _, _; (repeat split; try discriminate); try (right; reflexivity).
Qed.

Lemma query_ends_at_first_accepted_verdict_witness :
  exists r,
    steps Config_default indexed warming_llm 8 (start notice_period) = Ok r
    /\ next r = END
    /\ times_executed correct r = 2%nat
    /\ times_executed verify r = 3%nat
    /\ metadata (state_of r) !! "final_iteration_count" = Some (VInt 1).
Proof.
  destruct (query_ends_at_first_accepted_verdict Config_default indexed warming_llm
              notice_period [clause] 2) as (r & Hrun & Hend & Hc & Hv & _);
    [reflexivity | unfold recursion_limit; lia | reflexivity
    | exact warming_llm_satisfied_after |].
  exists r. split; [exact Hrun |]. split; [exact Hend |]. split; [exact Hc |].
  split; [exact Hv |].
  vm_compute in Hrun. injection Hrun as <-. reflexivity.
Defined.

End MoreSamples.


